(** * Flipkart reviews sentiment workflow: a shallow embedding

    The program is one Python file,
    [CRON_Flipkart_Reviews_Sentiment_Analysis_using_MLFlow_Prefect.py].
    Its tasks are thin compositions of pandas, numpy and scikit-learn calls.
    The tasks [load_data], [input_output], [split_train_test] and
    [train_model] are embedded under their own names; each library call they
    make is embedded under the library's name, following the library's
    documented behaviour on the arguments the task passes.

    Conventions.
    - A Python [str] is a list of code points ([pystr]).
    - A data frame is an index (one label per row), a list of column names
      and a list of rows.  [pd.read_csv], called without [index_col], gives
      a frame the default index [0, 1, ...]; when the rows of the file hold
      one field more than the header it takes the first field as the index.
      A [pd.Series] built from a numpy array has the default index, and
      assigning it to a column lines it up with the frame by index label.
    - A float cell is modelled by the rational it denotes ([Float]), by an
      infinity ([Inf]) or by [NaN]; the only float operations the tasks
      perform on cells are comparisons with the integers 3 and 4, which are
      exact.
    - A fit that raises inside the cross-validation is scored [nan]; a score
      is an [option Q], [None] standing for [nan].
    - A Python exception is a value of [exn]; a task returns
      [result A = Ok a | Err e]. *)

From Stdlib Require Import Strings.String Strings.Ascii.
From Stdlib Require Import List ZArith NArith QArith Qround Bool Lia.
From Stdlib Require Import Sorting.Permutation.
Import ListNotations.

Set Implicit Arguments.

Local Open Scope Z_scope.

(** ** Python strings *)

Module PyStr.

(** A [str] as the list of its code points. *)
Definition pystr := list N.

(** A literal, written as a Rocq string of ASCII characters. *)
Definition lit (s : string) : pystr :=
  map N_of_ascii (list_ascii_of_string s).

Definition eqb (a b : pystr) : bool :=
  if list_eq_dec N.eq_dec a b then true else false.

(** The code points [str.strip()] removes when called without argument:
    the characters for which [str.isspace] holds. *)
Definition isspace (c : N) : bool :=
  ((9 <=? c) && (c <=? 13) || (28 <=? c) && (c <=? 32)
   || (c =? 133) || (c =? 160) || (c =? 5760)
   || (8192 <=? c) && (c <=? 8202)
   || (c =? 8232) || (c =? 8233) || (c =? 8239) || (c =? 8287)
   || (c =? 12288))%N.

Fixpoint lstrip (s : pystr) : pystr :=
  match s with
  | c :: s' => if isspace c then lstrip s' else s
  | [] => []
  end.

Definition rstrip (s : pystr) : pystr := rev (lstrip (rev s)).

(** [s.strip()] *)
Definition strip (s : pystr) : pystr := rstrip (lstrip s).

(** [s.replace(old, new)] for one-character [old] and [new]. *)
Definition replace (old new : N) (s : pystr) : pystr :=
  map (fun c => if (c =? old)%N then new else c) s.

Definition space : N := 32.
Definition underscore : N := 95.

End PyStr.
Import PyStr.

(** ** Exceptions and results *)

(** One constructor per raise site the tasks can reach; [exn_class] gives the
    Python class of the exception raised there. *)
Inductive exn : Type :=
| KeyError (key : pystr)            (* frame[key], key not a column *)
| TypeError_compare                 (* str compared with int *)
| ValueError_not_1d                 (* pd.Series of a 2-d array *)
| ValueError_inconsistent_length    (* arrays of different lengths *)
| ValueError_test_size              (* test_size outside its range *)
| ValueError_empty_train            (* the train set would be empty *)
| ValueError_seed                   (* seed outside [0, 2**32) *)
| ValueError_empty_grid (key : pystr) (* a parameter with no candidate *)
| ValueError_cv                     (* fewer than two folds asked for *)
| ValueError_empty_array            (* the splitter is given no label *)
| ValueError_n_splits               (* more folds than samples *)
| ValueError_all_fits_failed        (* every fit of the search raised *)
| ValueError_fit                    (* the refit of the best setting raised *)
| ValueError_invalid_param          (* set_params rejects a name *)
| ValueError_scoring                (* unknown scoring name *)
| ValueError_folds                  (* the splitter rejects the labels *)
| IndexError.                       (* position outside the array *)

Definition exn_class (e : exn) : string :=
  match e with
  | KeyError _ => "KeyError"
  | TypeError_compare => "TypeError"
  | IndexError => "IndexError"
  | _ => "ValueError"
  end.

Inductive result (A : Type) : Type :=
| Ok (a : A)
| Err (e : exn).
Arguments Ok {A} a.
Arguments Err {A} e.

Definition bind {A B} (r : result A) (k : A -> result B) : result B :=
  match r with
  | Ok a => k a
  | Err e => Err e
  end.

Notation "x <- r ;; k" := (bind r (fun x => k))
  (at level 61, r at next level, right associativity).

Fixpoint mapM {A B} (f : A -> result B) (l : list A) : result (list B) :=
  match l with
  | [] => Ok []
  | a :: l' => b <- f a ;; bs <- mapM f l' ;; Ok (b :: bs)
  end.

(** ** Cells, series and data frames *)

(** A value held in a frame read by [pd.read_csv]: a missing value, an
    integer, a float, a boolean or a string. *)
Inductive cell : Type :=
| NaN
| Int (z : Z)
| Float (q : Q)
| Inf (positive : bool)
| Bool (b : bool)
| Str (s : pystr).

Record DataFrame : Type := {
  index : list cell;
  columns : list pystr;
  rows : list (list cell)
}.

(** [RangeIndex(n)]: the labels [0, 1, ..., n - 1]. *)
Definition RangeIndex (n : nat) : list cell :=
  map (fun i => Int (Z.of_nat i)) (seq 0 n).

(** The frame carries the default index. *)
Definition default_index (df : DataFrame) : Prop :=
  index df = RangeIndex (length (rows df)).

(** [df.reset_index(drop=True)]: the same frame under the default index, as
    it is when read back from a file written without its index. *)
Definition reset_index (df : DataFrame) : DataFrame :=
  {| index := RangeIndex (length (rows df));
     columns := columns df;
     rows := rows df |}.

(** Every row has one cell per column. *)
Definition well_formed (df : DataFrame) : Prop :=
  Forall (fun r => length r = length (columns df)) (rows df).

(** What [frame[key]] evaluates to: a series when one column bears the name,
    a frame of all the columns that bear it when several do. *)
Inductive selection : Type :=
| Series (values : list cell)
| SubFrame (df : DataFrame).

Fixpoint positions_from (i : nat) (key : pystr) (cols : list pystr) : list nat :=
  match cols with
  | [] => []
  | c :: cs =>
      if PyStr.eqb c key then i :: positions_from (S i) key cs
      else positions_from (S i) key cs
  end.

Definition positions (key : pystr) (cols : list pystr) : list nat :=
  positions_from 0 key cols.

Definition pick (js : list nat) (r : list cell) : list cell :=
  map (fun j => nth j r NaN) js.

(** [frame[key]] *)
Definition getitem (df : DataFrame) (key : pystr) : result selection :=
  match positions key (columns df) with
  | [] => Err (KeyError key)
  | [j] => Ok (Series (map (fun r => nth j r NaN) (rows df)))
  | js => Ok (SubFrame {| index := index df;
                          columns := map (fun _ => key) js;
                          rows := map (pick js) (rows df) |})
  end.

Fixpoint set_nth {A} (j : nat) (v : A) (l : list A) : list A :=
  match l, j with
  | [], _ => []
  | _ :: l', O => v :: l'
  | a :: l', S j' => a :: set_nth j' v l'
  end.

(** [frame[key] = values], with [values] already lined up with the rows of
    the frame: the columns named [key] are overwritten in place; when there
    is none, a new column is appended. *)
Definition setitem (df : DataFrame) (key : pystr) (values : list cell) : DataFrame :=
  match positions key (columns df) with
  | [] => {| index := index df;
             columns := columns df ++ [key];
             rows := map (fun rv => fst rv ++ [snd rv]) (combine (rows df) values) |}
  | js => {| index := index df;
             columns := columns df;
             rows := map (fun rv => fold_left (fun r j => set_nth j (snd rv) r) js (fst rv))
                         (combine (rows df) values) |}
  end.

(** *** Alignment of a series with a frame *)

(** The position of a label in [RangeIndex(n)]: an integer of the range, or
    a float equal to one; a string, a boolean or a missing label is not in
    it. *)
Definition range_position (n : nat) (l : cell) : option nat :=
  match l with
  | Int z => if (0 <=? z) && (z <? Z.of_nat n) then Some (Z.to_nat z) else None
  | Float q =>
      let z := Qfloor q in
      if Qeq_bool q (inject_Z z) && (0 <=? z) && (z <? Z.of_nat n)
      then Some (Z.to_nat z) else None
  | _ => None
  end.

(** An integer array that has to hold a missing value becomes an array of
    floats. *)
Definition to_float (c : cell) : cell :=
  match c with
  | Int z => Float (inject_Z z)
  | _ => c
  end.

(** [pd.Series(values).reindex(target)]: the series has the default index;
    a label of [target] that is not in it gets a missing value. *)
Definition reindex (values : list cell) (target : list cell) : list cell :=
  let found := map (fun l => option_map (fun p => nth p values NaN)
                                        (range_position (length values) l))
                   target in
  if forallb (fun o : option cell => match o with Some _ => true | None => false end)
             found
  then map (fun o : option cell => match o with Some v => v | None => NaN end) found
  else map (fun o : option cell => match o with Some v => to_float v | None => NaN end)
           found.

(** *** Comparisons of a cell with an integer *)

Definition ge_bool (c : cell) (k : Z) : bool :=
  match c with
  | NaN => false
  | Int z => k <=? z
  | Float q => Qle_bool (inject_Z k) q
  | Inf positive => positive
  | Bool b => k <=? Z.b2z b
  | Str _ => false
  end.

Definition le_bool (c : cell) (k : Z) : bool :=
  match c with
  | NaN => false
  | Int z => z <=? k
  | Float q => Qle_bool q (inject_Z k)
  | Inf positive => negb positive
  | Bool b => Z.b2z b <=? k
  | Str _ => false
  end.

(** [c >= k] and [c <= k]: Python refuses to order a [str] and an [int]. *)
Definition cell_ge (c : cell) (k : Z) : result bool :=
  match c with
  | Str _ => Err TypeError_compare
  | _ => Ok (ge_bool c k)
  end.

Definition cell_le (c : cell) (k : Z) : result bool :=
  match c with
  | Str _ => Err TypeError_compare
  | _ => Ok (le_bool c k)
  end.

(** [series >= k] and [series <= k], element by element. *)
Definition series_ge (s : list cell) (k : Z) : result (list bool) :=
  mapM (fun c => cell_ge c k) s.

Definition series_le (s : list cell) (k : Z) : result (list bool) :=
  mapM (fun c => cell_le c k) s.

Definition frame_ge (df : DataFrame) (k : Z) : result (list (list bool)) :=
  mapM (fun r => series_ge r k) (rows df).

Definition frame_le (df : DataFrame) (k : Z) : result (list (list bool)) :=
  mapM (fun r => series_le r k) (rows df).

(** *** numpy.select *)

(** [np.copyto(result, choice, where=cond)] for a scalar [choice]. *)
Definition copyto (res : list Z) (choice : Z) (cond : list bool) : list Z :=
  map (fun rc : Z * bool => if snd rc then choice else fst rc) (combine res cond).

(** [np.select(condlist, choicelist, default)] on arrays of length [n] and
    scalar choices: the result starts as [default] everywhere and the choices
    are burnt onto it from the last condition to the first, so that the first
    condition that holds wins. *)
Fixpoint np_select (condlist : list (list bool)) (choicelist : list Z)
    (default : Z) (n : nat) : list Z :=
  match condlist, choicelist with
  | cond :: condlist', choice :: choicelist' =>
      copyto (np_select condlist' choicelist' default n) choice cond
  | _, _ => repeat default n
  end.

Arguments np_select : simpl never.

(** *** Missing values *)

Definition is_empty_str (c : cell) : bool :=
  match c with
  | Str [] => true
  | _ => false
  end.

(** [df.replace('', np.nan, inplace=True)] *)
Definition replace_empty_with_nan (df : DataFrame) : DataFrame :=
  {| index := index df;
     columns := columns df;
     rows := map (map (fun c => if is_empty_str c then NaN else c)) (rows df) |}.

Definition notna (c : cell) : bool :=
  match c with
  | NaN => false
  | _ => true
  end.

(** [df.dropna(inplace=True)]: a row goes, with its index label, as soon as
    one of its cells is missing. *)
Definition dropna (df : DataFrame) : DataFrame :=
  {| index := map fst (filter (fun lr : cell * list cell => forallb notna (snd lr))
                              (combine (index df) (rows df)));
     columns := columns df;
     rows := filter (forallb notna) (rows df) |}.

(** ** The tasks *)

Definition Ratings : pystr := lit "Ratings".
Definition Review_text : pystr := lit "Review_text".

(** [col.strip().replace(' ', '_')] *)
Definition normalize_column (col : pystr) : pystr :=
  PyStr.replace space underscore (strip col).

(** [load_data], from the frame [pd.read_csv(file_path)] returned.  The
    labels come from [np.select] as an array, [pd.Series] gives them the
    default index, and the assignment lines them up with the index of the
    frame. *)
Definition load_data (read : DataFrame) : result DataFrame :=
  let df := {| index := index read;
               columns := map normalize_column (columns read);
               rows := rows read |} in
  sel <- getitem df Ratings ;;
  match sel with
  | Series ratings =>
      ge4 <- series_ge ratings 4 ;;
      le3 <- series_le ratings 3 ;;
      let labels := np_select [ge4; le3] [1; 0] 0 (length ratings) in
      let df := setitem df Ratings (reindex (map Int labels) (index df)) in
      let df := replace_empty_with_nan df in
      Ok (dropna df)
  | SubFrame ratings =>
      _ <- frame_ge ratings 4 ;;
      _ <- frame_le ratings 3 ;;
      Err ValueError_not_1d
  end.

(** [input_output] *)
Definition input_output (data : DataFrame) (input output : pystr)
    : result (selection * selection) :=
  X <- getitem data input ;;
  y <- getitem data output ;;
  Ok (X, y).

(** The part of [workflow] that makes the features and the target:
    [load_data], then [input_output] with [INPUT = 'Review_text'] and
    [OUTPUT = 'Ratings']. *)
Definition workflow_features (read : DataFrame) : result (selection * selection) :=
  df <- load_data read ;;
  input_output df Review_text Ratings.

(** The rows of a selection, one list of cells per row. *)
Definition selection_rows (s : selection) : list (list cell) :=
  match s with
  | Series values => map (fun v => [v]) values
  | SubFrame df => rows df
  end.

(** The cells of a row that stand under the columns named [key]. *)
Definition cells_named (key : pystr) (cols : list pystr) (r : list cell) : list cell :=
  map snd (filter (fun cv : pystr * cell => PyStr.eqb (fst cv) key) (combine cols r)).

(** The label of a rating: 1 from 4 upwards, 0 otherwise. *)
Definition label_of (rating : cell) : Z :=
  if ge_bool rating 4 then 1 else 0.

(** A row with no missing and no empty cell. *)
Definition complete (r : list cell) : bool :=
  forallb (fun c => notna c && negb (is_empty_str c)) r.

(** A name with no white space at either end. *)
Definition trimmed (s : pystr) : Prop :=
  (forall c, hd_error s = Some c -> isspace c = false) /\
  (forall c, hd_error (rev s) = Some c -> isspace c = false).

(** *** split_train_test *)

(** numpy's [RandomState]: the state of a generator, the generator seeded
    with an integer, and [permutation(n)], which returns an arrangement of
    [range(n)] and advances the generator. *)
Record RandomState : Type := {
  rng : Type;
  seeded : Z -> rng;
  permutation : rng -> nat -> list nat * rng
}.

(** The [test_size] argument: a float, an int or [None]. *)
Inductive size : Type :=
| Fraction (q : Q)
| Count (k : Z)
| Unset.

(** The [random_state] argument: an int or [None]. *)
Inductive seed_arg : Type :=
| Seed (s : Z)
| Unseeded.

(** The checks [train_test_split] makes on its arguments before it looks at
    the arrays: a float [test_size] lies strictly between 0 and 1, an int
    one is at least 1, and an int [random_state] can seed a generator. *)
Definition validate_params (test_size : size) (random_state : seed_arg)
    : result unit :=
  _ <- match test_size with
       | Fraction q =>
           if Qle_bool q 0 || Qle_bool 1 q then Err ValueError_test_size else Ok tt
       | Count k => if k <=? 0 then Err ValueError_test_size else Ok tt
       | Unset => Ok tt
       end ;;
  match random_state with
  | Seed s =>
      if (0 <=? s) && (s <? 2 ^ 32) then Ok tt else Err ValueError_seed
  | Unseeded => Ok tt
  end.

(** sklearn's [_validate_shuffle_split] with [train_size=None] and
    [default_test_size=0.25]: the pair [(n_train, n_test)].  The number of
    test rows of a float [test_size] is the ceiling of the exact product;
    the code rounds the product to a double first, which can move the
    ceiling by one when the product is within rounding distance of an
    integer. *)
Definition validate_shuffle_split (n_samples : nat) (test_size : size)
    : result (nat * nat) :=
  let test_size := match test_size with Unset => Fraction (1 # 4) | _ => test_size end in
  n_test <- match test_size with
            | Fraction q =>
                if Qle_bool q 0 || Qle_bool 1 q then Err ValueError_test_size
                else Ok (Z.to_nat (Qceiling (q * inject_Z (Z.of_nat n_samples))))
            | Count k =>
                if (Z.of_nat n_samples <=? k) || (k <=? 0) then Err ValueError_test_size
                else Ok (Z.to_nat k)
            | Unset => Err ValueError_test_size
            end ;;
  let n_train := (n_samples - n_test)%nat in
  if (n_train =? 0)%nat then Err ValueError_empty_train
  else Ok (n_train, n_test).

(** sklearn's [check_random_state]: an int seeds a generator of its own,
    [None] stands for numpy's global generator.  The boolean tells whether
    the generator returned is the global one. *)
Definition check_random_state (R : RandomState) (global : rng R)
    (random_state : seed_arg) : result (rng R * bool) :=
  match random_state with
  | Seed s =>
      if (0 <=? s) && (s <? 2 ^ 32) then Ok (seeded R s, false)
      else Err ValueError_seed
  | Unseeded => Ok (global, true)
  end.

(** [ShuffleSplit._iter_indices], first split: the test positions are the
    head of the permutation, the train positions follow. *)
Definition shuffle_split (perm : list nat) (n_train n_test : nat)
    : list nat * list nat :=
  (firstn n_train (skipn n_test perm), firstn n_test perm).

(** [_safe_indexing(a, indices)] *)
Definition safe_indexing {A} (a : list A) (indices : list nat) : result (list A) :=
  mapM (fun i => match nth_error a i with
                 | Some x => Ok x
                 | None => Err IndexError
                 end) indices.

(** What [train_test_split] computes before it indexes the arrays: the train
    and test positions, and the state of numpy's global generator after the
    call. *)
Definition train_test_indices (R : RandomState) (global : rng R)
    (n_x n_y : nat) (test_size : size) (random_state : seed_arg)
    : result (list nat * list nat) * rng R :=
  match validate_params test_size random_state with
  | Err e => (Err e, global)
  | Ok _ =>
      if negb (n_x =? n_y)%nat then (Err ValueError_inconsistent_length, global)
      else
        match validate_shuffle_split n_x test_size with
        | Err e => (Err e, global)
        | Ok (n_train, n_test) =>
            match check_random_state R global random_state with
            | Err e => (Err e, global)
            | Ok (g, is_global) =>
                let (perm, g') := permutation R g n_x in
                (Ok (shuffle_split perm n_train n_test),
                 if is_global then g' else global)
            end
        end
  end.

(** [train_test_split(X, y, test_size=..., random_state=...)], threading the
    state of numpy's global generator.  The result is
    [X_train, X_test, y_train, y_test]. *)
Definition train_test_split {A B} (R : RandomState) (global : rng R)
    (X : list A) (y : list B) (test_size : size) (random_state : seed_arg)
    : result (list A * list A * list B * list B) * rng R :=
  let (indices, global') :=
    train_test_indices R global (length X) (length y) test_size random_state in
  (ix <- indices ;;
   X_train <- safe_indexing X (fst ix) ;;
   X_test <- safe_indexing X (snd ix) ;;
   y_train <- safe_indexing y (fst ix) ;;
   y_test <- safe_indexing y (snd ix) ;;
   Ok (X_train, X_test, y_train, y_test),
   global').

Definition default_test_size : size := Fraction (1 # 4).
Definition default_random_state : seed_arg := Seed 42.

(** [split_train_test] *)
Definition split_train_test {A B} (R : RandomState) (global : rng R)
    (X : list A) (y : list B) (test_size : size) (random_state : seed_arg)
    : result (list A * list A * list B * list B) * rng R :=
  train_test_split R global X y test_size random_state.

(** *** train_model *)

(** Labels are the two classes of the workflow: [true] stands for 1. *)
Definition label := bool.

(** The pipeline [CountVectorizer -> MultinomialNB] as an estimator: its
    parameter values, what a fit returns, which parameter names
    [set_params] accepts, whether [fit] raises on its arguments
    ([fit_raises]), what [fit] returns when it does not, and [predict].  The
    joblib cache the pipeline is given only memoises fits, so [fit] is a
    function of its arguments. *)
Record Estimator : Type := {
  sample : Type;
  param : Type;
  fitted : Type;
  set_params : list (pystr * param) -> bool;
  fit_raises : list (pystr * param) -> list sample -> list label -> bool;
  fit : list (pystr * param) -> list sample -> list label -> fitted;
  predict : fitted -> sample -> label
}.

(** The assignment of samples to test folds that [check_cv(cv, y,
    classifier=True)] settles: for [n_splits] folds and labels [y], the fold
    of each sample, or the error the splitter raises on these labels. *)
Definition Splitter : Type := nat -> list label -> result (list nat).

(** [f1_score(y_true, y_pred)] with the positive class 1; 0 when there is
    neither a positive label nor a positive prediction. *)
Definition count_pairs (t p : bool) (y_true y_pred : list label) : Z :=
  Z.of_nat (length (filter (fun tp : label * label =>
                              Bool.eqb (fst tp) t && Bool.eqb (snd tp) p)
                           (combine y_true y_pred))).

Definition f1_score (y_true y_pred : list label) : Q :=
  let tp := count_pairs true true y_true y_pred in
  let fp := count_pairs false true y_true y_pred in
  let fn := count_pairs true false y_true y_pred in
  if 2 * tp + fp + fn =? 0 then 0%Q
  else Qmake (2 * tp) (Z.to_pos (2 * tp + fp + fn)).

(** [get_scorer(name)], for the one metric the task names; the other
    metrics of the registry are left out of the model. *)
Definition get_scorer (name : pystr)
    : result (list label -> list label -> Q) :=
  if PyStr.eqb name (lit "f1") then Ok f1_score
  else Err ValueError_scoring.

(** Order of Python strings: lexicographic on code points. *)
Fixpoint pystr_leb (a b : pystr) : bool :=
  match a, b with
  | [], _ => true
  | _ :: _, [] => false
  | x :: a', y :: b' =>
      if (x <? y)%N then true
      else if (y <? x)%N then false
      else pystr_leb a' b'
  end.

Fixpoint insert_item {V} (kv : pystr * V) (l : list (pystr * V)) : list (pystr * V) :=
  match l with
  | [] => [kv]
  | kv' :: l' =>
      if pystr_leb (fst kv) (fst kv') then kv :: l
      else kv' :: insert_item kv l'
  end.

(** [sorted(d.items())] for a dict given by its items. *)
Definition sorted_items {V} (d : list (pystr * V)) : list (pystr * V) :=
  fold_right insert_item [] d.

(** [itertools.product] of the lists [ls] *)
Fixpoint product {A} (ls : list (list A)) : list (list A) :=
  match ls with
  | [] => [[]]
  | l :: ls' => flat_map (fun a => map (cons a) (product ls')) l
  end.

(** [list(ParameterGrid(param_grid))]: a parameter with no candidate is
    refused; otherwise the keys are sorted and one candidate setting is made
    for every element of the product of the value lists. *)
Definition ParameterGrid {V} (param_grid : list (pystr * list V))
    : result (list (list (pystr * V))) :=
  match find (fun kv => match snd kv with [] => true | _ => false end) param_grid with
  | Some kv => Err (ValueError_empty_grid (fst kv))
  | None =>
      let items := sorted_items param_grid in
      Ok (map (combine (map fst items)) (product (map snd items)))
  end.

(** [_BaseKFold.split]: the positions of the train and test samples of each
    of the [n_splits] folds. *)
Definition positions_in_fold (keep : nat -> bool) (test_folds : list nat) : list nat :=
  map fst (filter (fun it : nat * nat => keep (snd it))
                  (combine (seq 0 (length test_folds)) test_folds)).

Definition kfold_split (splitter : Splitter) (n_splits : nat) (y : list label)
    : result (list (list nat * list nat)) :=
  if (length y =? 0)%nat then Err ValueError_empty_array
  else if (length y <? n_splits)%nat then Err ValueError_n_splits
  else
    test_folds <- splitter n_splits y ;;
    Ok (map (fun i => (positions_in_fold (fun f => negb (f =? i)%nat) test_folds,
                       positions_in_fold (fun f => (f =? i)%nat) test_folds))
            (seq 0 n_splits)).

Definition take {A} (a : list A) (indices : list nat) : list A :=
  flat_map (fun i => match nth_error a i with
                     | Some x => [x]
                     | None => []
                     end) indices.

(** A score, [None] standing for [nan]. *)
Definition score : Type := option Q.

(** What the search records for one candidate setting. *)
Record CandidateResult (E : Estimator) : Type := {
  params : list (pystr * param E);
  split_test_score : list score;
  split_train_score : option (list score);
  mean_test_score : score
}.

(** A fitted [GridSearchCV]. *)
Record GridSearchCV (E : Estimator) : Type := {
  cv_results_ : list (CandidateResult E);
  n_splits_ : nat;
  best_index_ : nat;
  best_params_ : list (pystr * param E);
  best_estimator_ : option (fitted E)
}.

(** The score of a fitted setting on one part of the data. *)
Definition score_on (E : Estimator) (scorer : list label -> list label -> Q)
    (m : fitted E) (X : list (sample E)) (y : list label) (part : list nat) : Q :=
  scorer (take y part) (map (predict E m) (take X part)).

(** [_fit_and_score] with [error_score=nan]: fit on the train part of the
    split and score the test part and the train part; when the fit raises,
    both scores are [nan]. *)
Definition fit_and_score (E : Estimator) (scorer : list label -> list label -> Q)
    (X : list (sample E)) (y : list label)
    (parameters : list (pystr * param E)) (split : list nat * list nat)
    : score * score :=
  if fit_raises E parameters (take X (fst split)) (take y (fst split))
  then (None, None)
  else
    let m := fit E parameters (take X (fst split)) (take y (fst split)) in
    (Some (score_on E scorer m X y (snd split)),
     Some (score_on E scorer m X y (fst split))).

(** The sum of scores: [nan] as soon as one of them is. *)
Definition nansum (l : list score) : score :=
  fold_right (fun a acc => match a, acc with
                           | Some q, Some t => Some (q + t)%Q
                           | _, _ => None
                           end) (Some 0%Q) l.

(** [np.average] of the scores of a setting. *)
Definition mean (l : list score) : score :=
  option_map (fun t => (t / inject_Z (Z.of_nat (length l)))%Q) (nansum l).

Definition evaluate_candidate (E : Estimator) (scorer : list label -> list label -> Q)
    (return_train_score : bool) (X : list (sample E)) (y : list label)
    (splits : list (list nat * list nat)) (parameters : list (pystr * param E))
    : CandidateResult E :=
  let out := map (fit_and_score E scorer X y parameters) splits in
  {| params := parameters;
     split_test_score := map fst out;
     split_train_score := if return_train_score then Some (map snd out) else None;
     mean_test_score := mean (map fst out) |}.

(** The first position that holds the greatest value. *)
Fixpoint argmax_from (i best_i : nat) (best : Q) (l : list Q) : nat :=
  match l with
  | [] => best_i
  | q :: l' =>
      if Qle_bool q best then argmax_from (S i) best_i best l'
      else argmax_from (S i) i q l'
  end.

Definition argmax (l : list Q) : nat :=
  match l with
  | [] => 0%nat
  | q :: l' => argmax_from 1 0 q l'
  end.

(** [np.nanmin]: the least of the scores that are not [nan]. *)
Definition nanmin (l : list score) : score :=
  fold_right (fun a acc => match a, acc with
                           | Some q, Some m => Some (if Qle_bool q m then q else m)
                           | Some q, None => Some q
                           | None, _ => acc
                           end) None l.

(** The position of rank 1 in [rank_test_score], as [argmin] picks it: when
    every mean is [nan] all ranks are 1 and the first position is picked;
    otherwise a [nan] mean counts as the least mean less 1, and the first
    position with the greatest mean is picked. *)
Definition rank_first (means : list score) : nat :=
  match nanmin means with
  | None => 0%nat
  | Some m => argmax (map (fun a : score => match a with
                                            | Some q => q
                                            | None => (m - 1)%Q
                                            end) means)
  end.

(** [GridSearchCV(estimator, param_grid, scoring, cv, return_train_score,
    refit).fit(X, y)], with [error_score] left at [nan]: a fit that raises
    in the cross-validation is scored [nan], the search raises when every
    fit did, and the refit of the best setting is not guarded. *)
Definition GridSearchCV_fit (E : Estimator) (splitter : Splitter)
    (param_grid : list (pystr * list (param E))) (scoring : pystr) (cv : nat)
    (return_train_score refit : bool) (X : list (sample E)) (y : list label)
    : result (GridSearchCV E) :=
  scorer <- get_scorer scoring ;;
  if negb (length X =? length y)%nat then Err ValueError_inconsistent_length
  else if (cv <? 2)%nat then Err ValueError_cv
  else
    candidates <- ParameterGrid param_grid ;;
    splits <- kfold_split splitter cv y ;;
    if negb (forallb (set_params E) candidates) then Err ValueError_invalid_param
    else
      let results :=
        map (evaluate_candidate E scorer return_train_score X y splits) candidates in
      if forallb (fun r => forallb (fun a : score => match a with
                                                     | None => true
                                                     | Some _ => false
                                                     end)
                                   (split_test_score r)) results
      then Err ValueError_all_fits_failed
      else
        let best := rank_first (map (@mean_test_score E) results) in
        let best_params := nth best candidates [] in
        if refit
        then
          if fit_raises E best_params X y then Err ValueError_fit
          else Ok {| cv_results_ := results;
                     n_splits_ := cv;
                     best_index_ := best;
                     best_params_ := best_params;
                     best_estimator_ := Some (fit E best_params X y) |}
        else Ok {| cv_results_ := results;
                   n_splits_ := cv;
                   best_index_ := best;
                   best_params_ := best_params;
                   best_estimator_ := None |}.

(** [train_model]: the search is configured with [scoring='f1'], [cv=4] and
    [return_train_score=True]; [refit] keeps its default, [True]. *)
Definition train_model (E : Estimator) (splitter : Splitter)
    (X_train : list (sample E)) (y_train : list label)
    (hyperparameters : list (pystr * list (param E)))
    : result (GridSearchCV E) :=
  GridSearchCV_fit E splitter hyperparameters (lit "f1") 4 true true
                   X_train y_train.

(** *** evaluate_model *)

(** The exceptions [evaluate_model] can meet. *)
Inductive eval_exn : Type :=
| AttributeError_refit       (* predict of a search made with refit=False *)
| ValueError_no_samples      (* predict on an array without samples *)
| ValueError_lengths.        (* f1_score on arrays of different lengths *)

Definition eval_exn_class (e : eval_exn) : string :=
  match e with
  | AttributeError_refit => "AttributeError"
  | _ => "ValueError"
  end.

Inductive evaluated (A : Type) : Type :=
| Scored (a : A)
| Raised (e : eval_exn).
Arguments Scored {A} a.
Arguments Raised {A} e.

(** [model.predict(X)] for a fitted search: it is there only when the search
    has refitted its best estimator, whose last step refuses an array
    without samples. *)
Definition GridSearchCV_predict (E : Estimator) (model : GridSearchCV E)
    (X : list (sample E)) : evaluated (list label) :=
  match best_estimator_ model with
  | None => Raised AttributeError_refit
  | Some m =>
      match X with
      | [] => Raised ValueError_no_samples
      | _ => Scored (map (predict E m) X)
      end
  end.

(** [metrics.f1_score(y_true, y_pred)], which checks the lengths first and
    refuses arrays without samples. *)
Definition metrics_f1_score (y_true y_pred : list label) : evaluated Q :=
  if negb (length y_true =? length y_pred)%nat then Raised ValueError_lengths
  else match y_true with
       | [] => Raised ValueError_no_samples
       | _ => Scored (f1_score y_true y_pred)
       end.

(** [evaluate_model] *)
Definition evaluate_model (E : Estimator) (model : GridSearchCV E)
    (X_train : list (sample E)) (y_train : list label)
    (X_test : list (sample E)) (y_test : list label) : evaluated (Q * Q) :=
  match GridSearchCV_predict model X_train with
  | Raised e => Raised e
  | Scored y_train_pred =>
      match GridSearchCV_predict model X_test with
      | Raised e => Raised e
      | Scored y_test_pred =>
          match metrics_f1_score y_train y_train_pred with
          | Raised e => Raised e
          | Scored train_score =>
              match metrics_f1_score y_test y_test_pred with
              | Raised e => Raised e
              | Scored test_score => Scored (train_score, test_score)
              end
          end
      end
  end.

(** *** The schedule *)

(** A field of a cron expression, of the two forms the deployment uses: a
    star or a number. *)
Inductive cron_field : Type :=
| Any
| Exactly (n : nat).

(** The five fields: minute, hour, day of month, month, day of week. *)
Record cron : Type := {
  cron_minute : cron_field;
  cron_hour : cron_field;
  cron_day : cron_field;
  cron_month : cron_field;
  cron_weekday : cron_field
}.

(** [s.split()]: the runs of characters between white space. *)
Fixpoint split_from (cur : pystr) (s : pystr) : list pystr :=
  match s with
  | [] => match cur with [] => [] | _ => [rev cur] end
  | c :: s' =>
      if isspace c
      then match cur with
           | [] => split_from [] s'
           | _ => rev cur :: split_from [] s'
           end
      else split_from (c :: cur) s'
  end.

Definition pystr_split (s : pystr) : list pystr := split_from [] s.

Fixpoint parse_digits (acc : nat) (s : pystr) : option nat :=
  match s with
  | [] => Some acc
  | c :: s' =>
      if ((48 <=? c) && (c <=? 57))%N
      then parse_digits (10 * acc + N.to_nat (c - 48)) s'
      else None
  end.

(** A field with the least and the greatest number it admits. *)
Definition parse_field (lo hi : nat) (s : pystr) : option cron_field :=
  if PyStr.eqb s (lit "*") then Some Any
  else match s with
       | [] => None
       | _ => match parse_digits 0 s with
              | Some n => if ((lo <=? n) && (n <=? hi))%nat then Some (Exactly n) else None
              | None => None
              end
       end.

Definition parse_cron (s : pystr) : option cron :=
  match pystr_split s with
  | [mi; ho; da; mo; wd] =>
      match parse_field 0 59 mi, parse_field 0 23 ho, parse_field 1 31 da,
            parse_field 1 12 mo, parse_field 0 7 wd with
      | Some mi, Some ho, Some da, Some mo, Some wd =>
          Some {| cron_minute := mi; cron_hour := ho; cron_day := da;
                  cron_month := mo; cron_weekday := wd |}
      | _, _, _, _, _ => None
      end
  | _ => None
  end.

(** A minute of the calendar; Sunday is weekday 0. *)
Record moment : Type := {
  at_minute : nat;
  at_hour : nat;
  at_day : nat;
  at_month : nat;
  at_weekday : nat
}.

Definition field_matches (f : cron_field) (v : nat) : bool :=
  match f with
  | Any => true
  | Exactly n => (n =? v)%nat
  end.

(** In the day-of-week field 7 is Sunday as well. *)
Definition weekday_matches (f : cron_field) (v : nat) : bool :=
  match f with
  | Any => true
  | Exactly n => (n mod 7 =? v)%nat
  end.

(** Whether the schedule fires at a moment: minute, hour and month must
    match; of the two day fields, both must match when one is a star, and one
    is enough when both are numbers. *)
Definition fires (c : cron) (t : moment) : bool :=
  field_matches (cron_minute c) (at_minute t)
  && field_matches (cron_hour c) (at_hour t)
  && field_matches (cron_month c) (at_month t)
  && match cron_day c, cron_weekday c with
     | Exactly _, Exactly _ =>
         field_matches (cron_day c) (at_day t)
         || weekday_matches (cron_weekday c) (at_weekday t)
     | _, _ =>
         field_matches (cron_day c) (at_day t)
         && weekday_matches (cron_weekday c) (at_weekday t)
     end.

(** The [cron] argument of [workflow.serve]. *)
Definition schedule : pystr := lit "30 * 15 * *".

(** ** Notions the properties are stated with *)

(** A string cell. *)
Definition is_str (c : cell) : bool :=
  match c with
  | Str _ => true
  | _ => false
  end.

(** The row [r] with the label of its rating written at position [j]. *)
Definition relabel (j : nat) (r : list cell) : list cell :=
  set_nth j (Int (label_of (nth j r NaN))) r.

(** A setting picks, for one parameter, one of its candidate values. *)
Definition picks (V : Type) (setting : pystr * V) (item : pystr * list V) : Prop :=
  fst setting = fst item /\ In (snd setting) (snd item).

(** The labels [load_data] computes from the ratings under column [j],
    lined up with the index of the frame read. *)
Definition aligned_labels (j : nat) (read : DataFrame) : list cell :=
  reindex (map (fun r => Int (label_of (nth j r NaN))) (rows read)) (index read).

(** The rows of the frame read with the aligned labels written at position
    [j], before the incomplete rows are dropped. *)
Definition labelled (j : nat) (read : DataFrame) : list (list cell) :=
  map (fun rv : list cell * cell => set_nth j (snd rv) (fst rv))
      (combine (rows read) (aligned_labels j read)).

(** The label 0 or 1, as an integer or as a float. *)
Definition binary_label (c : cell) : Prop :=
  c = Int 0 \/ c = Int 1 \/ c = Float (inject_Z 0) \/ c = Float (inject_Z 1).








(** ** The grid of the workflow *)

(** The values the workflow puts in its grid. *)
Inductive hyperparameter : Type :=
| CountVectorizer
| Number (z : Z).

(** [HYPERPARAMETERS] of [workflow]. *)
Definition HYPERPARAMETERS : list (pystr * list hyperparameter) :=
  [ (lit "vectorization", [CountVectorizer]);
    (lit "vectorization__max_features", [Number 5000]);
    (lit "classifier__alpha", [Number 1]) ].

(** ** Example data *)

(** The scenario of the specification: ratings 5, 2, 3, 4 and one row with an
    empty review. *)
Definition scenario : DataFrame :=
  {| index := [Int 0; Int 1; Int 2; Int 3; Int 4];
     columns := [lit " Review text "; lit "Ratings"];
     rows := [ [Str (lit "great"); Int 5];
               [Str (lit "poor"); Int 2];
               [Str (lit "average"); Int 3];
               [Str (lit ""); Int 5];
               [Str (lit "good"); Int 4] ] |}.

(** What [load_data] makes of it. *)
Definition scenario_loaded : DataFrame :=
  {| index := [Int 0; Int 1; Int 2; Int 4];
     columns := [Review_text; Ratings];
     rows := [ [Str (lit "great"); Int 1];
               [Str (lit "poor"); Int 0];
               [Str (lit "average"); Int 0];
               [Str (lit "good"); Int 1] ] |}.

(** A frame whose only rating, 3.5, is neither >= 4 nor <= 3. *)
Definition between : DataFrame :=
  {| index := [Int 0];
     columns := [lit "Review text"; lit "Ratings"];
     rows := [ [Str (lit "fine"); Float (7 # 2)] ] |}.


(** The same with the first fields [a] and [b]. *)
Definition keyed : DataFrame :=
  {| index := [Str (lit "a"); Str (lit "b")];
     columns := [lit "Review text"; lit "Ratings"];
     rows := [ [Str (lit "great"); Int 5];
               [Str (lit "poor"); Int 2] ] |}.

(** A generator for the examples: its state is a counter, and
    [permutation n] rotates [range(n)] by the counter. *)
Definition rotating : RandomState :=
  {| rng := nat;
     seeded := Z.to_nat;
     permutation := fun g n =>
       (skipn (g mod n) (seq 0 n) ++ firstn (g mod n) (seq 0 n), S g) |}.

(** An estimator for the examples: it accepts the parameter names of the
    workflow, its fit raises when [vectorization__max_features] is not
    positive, it learns whether there are more positive than negative labels
    (strictly more when [classifier__alpha] is 2) and predicts that. *)
Definition majority : Estimator :=
  {| sample := pystr;
     param := hyperparameter;
     fitted := bool;
     set_params := forallb (fun kv =>
       existsb (PyStr.eqb (fst kv))
         [lit "vectorization"; lit "vectorization__max_features";
          lit "classifier__alpha"]);
     fit_raises := fun parameters _ _ =>
       existsb (fun kv : pystr * hyperparameter =>
                  PyStr.eqb (fst kv) (lit "vectorization__max_features")
                  && match snd kv with Number z => z <=? 0 | _ => false end)
               parameters;
     fit := fun parameters _ y =>
       let pos := length (filter (fun b : bool => b) y) in
       let neg := length (filter negb y) in
       if existsb (fun kv : pystr * hyperparameter =>
                     PyStr.eqb (fst kv) (lit "classifier__alpha")
                     && match snd kv with Number 2 => true | _ => false end)
                  parameters
       then (neg <? pos)%nat else (neg <=? pos)%nat;
     predict := fun m _ => m |}.

(** A splitter for the examples: sample [i] goes to fold [i mod n_splits]. *)
Definition round_robin : Splitter :=
  fun n_splits y => Ok (map (fun i => i mod n_splits)%nat (seq 0 (length y))).

(** Eight reviews and their labels, and a grid of two parameters with two
    candidates each. *)
Definition reviews : list pystr :=
  map lit ["good"; "bad"; "fine"; "poor"; "nice"; "slow"; "great"; "weak"]%string.

Definition sentiments : list label :=
  [true; false; true; false; false; true; false; true].

Definition two_by_two : list (pystr * list hyperparameter) :=
  [ (lit "vectorization__max_features", [Number 5000; Number 100]);
    (lit "classifier__alpha", [Number 1; Number 2]) ].

(** A grid whose first setting cannot be fitted. *)
Definition failing_first : list (pystr * list hyperparameter) :=
  [ (lit "vectorization__max_features", [Number 0; Number 100]) ].

(** * Properties *)

(** ** Python strings *)

Lemma pystr_eqb_eq (a b : pystr) : PyStr.eqb a b = true <-> a = b.
Proof.
  unfold PyStr.eqb. destruct (list_eq_dec N.eq_dec a b); split; congruence.
Qed.

Lemma pystr_eqb_refl (a : pystr) : PyStr.eqb a a = true.
Proof. now apply pystr_eqb_eq. Qed.

(** ** Column names *)

Section ColumnNames.

Lemma lstrip_head (s : pystr) (c : N) :
  hd_error (lstrip s) = Some c -> isspace c = false.
Proof.
  induction s as [|a s IH]; simpl; [discriminate|].
  destruct (isspace a) eqn:Ha; [exact IH|].
  simpl. intros [= <-]. exact Ha.
Qed.

Lemma lstrip_suffix (s : pystr) : exists p, s = p ++ lstrip s.
Proof.
  induction s as [|a s [p IH]]; simpl.
  - now exists [].
  - destruct (isspace a).
    + exists (a :: p). simpl. now f_equal.
    + now exists [].
Qed.

Lemma hd_error_app_l (A : Type) (l l' : list A) (c : A) :
  hd_error l = Some c -> hd_error (l ++ l') = Some c.
Proof. destruct l; simpl; [discriminate | auto]. Qed.

Lemma strip_trimmed (s : pystr) : trimmed (strip s).
Proof.
  unfold trimmed, strip, rstrip. split; intros c Hc.
  - destruct (lstrip_suffix (rev (lstrip s))) as [p Hp].
    apply (lstrip_head s).
    rewrite <- (rev_involutive (lstrip s)), Hp, rev_app_distr.
    now apply hd_error_app_l.
  - rewrite rev_involutive in Hc. now apply lstrip_head in Hc.
Qed.

Lemma replace_no_space (s : pystr) : ~ In space (PyStr.replace space underscore s).
Proof.
  unfold PyStr.replace. rewrite in_map_iff. intros [c [Hc _]].
  destruct (c =? space)%N eqn:E.
  - discriminate.
  - apply N.eqb_neq in E. congruence.
Qed.

Lemma replace_trimmed (s : pystr) :
  trimmed s -> trimmed (PyStr.replace space underscore s).
Proof.
  assert (step : forall c, isspace c = false ->
            isspace (if (c =? space)%N then underscore else c) = false).
  { intros c Hc. destruct (c =? space)%N; [reflexivity | exact Hc]. }
  unfold trimmed, PyStr.replace. intros [Hh Hl]. split; intros c.
  - destruct s as [|a s]; simpl; [discriminate|].
    intros [= <-]. apply step, Hh. reflexivity.
  - rewrite <- map_rev. destruct (rev s) as [|a t]; simpl; [discriminate|].
    intros [= <-]. apply step, Hl. reflexivity.
Qed.

Lemma normalize_column_clean (col : pystr) :
  trimmed (normalize_column col) /\ ~ In space (normalize_column col).
Proof.
  split.
  - apply replace_trimmed, strip_trimmed.
  - apply replace_no_space.
Qed.

End ColumnNames.

(** ** Frames *)

Section Frames.

Lemma mapM_ok (A B : Type) (f : A -> result B) (g : A -> B) (l : list A) (bs : list B) :
  (forall a b, f a = Ok b -> b = g a) ->
  mapM f l = Ok bs -> bs = map g l.
Proof.
  intros Hf. revert bs. induction l as [|a l IH]; simpl; intros bs.
  - now intros [= <-].
  - destruct (f a) as [b|e] eqn:Ea; simpl; [|discriminate].
    destruct (mapM f l) as [bs'|e] eqn:El; simpl; [|discriminate].
    intros [= <-]. f_equal; auto.
Qed.

Lemma mapM_ok_Forall (A B : Type) (f : A -> result B) (l : list A) (bs : list B) :
  mapM f l = Ok bs -> Forall (fun a => exists b, f a = Ok b) l.
Proof.
  revert bs. induction l as [|a l IH]; simpl; intros bs; [constructor|].
  destruct (f a) as [b|e] eqn:Ea; simpl; [|discriminate].
  destruct (mapM f l) as [bs'|e] eqn:El; simpl; [|discriminate].
  intros _. constructor; eauto.
Qed.

Lemma mapM_err (A B : Type) (f : A -> result B) (l : list A) (a : A) (e : exn) :
  (forall a' e', f a' = Err e' -> e' = e) ->
  In a l -> f a = Err e -> mapM f l = Err e.
Proof.
  intros Hf. induction l as [|x l IH]; simpl; [tauto|].
  intros Hin Ha. destruct (f x) as [b|e'] eqn:Ex; simpl.
  - destruct Hin as [-> | Hin]; [congruence|].
    now rewrite (IH Hin Ha).
  - f_equal. now apply (Hf x).
Qed.

Lemma mapM_total (A B : Type) (f : A -> result B) (g : A -> B) (l : list A) :
  Forall (fun a => f a = Ok (g a)) l -> mapM f l = Ok (map g l).
Proof.
  induction 1 as [|a l Ha _ IH]; simpl; [reflexivity|].
  now rewrite Ha, IH.
Qed.

Lemma cell_ge_ok (c : cell) (k : Z) (b : bool) :
  cell_ge c k = Ok b -> b = ge_bool c k.
Proof. destruct c; simpl; congruence. Qed.

Lemma cell_le_ok (c : cell) (k : Z) (b : bool) :
  cell_le c k = Ok b -> b = le_bool c k.
Proof. destruct c; simpl; congruence. Qed.

Lemma cell_ge_not_str (c : cell) (k : Z) :
  is_str c = false -> cell_ge c k = Ok (ge_bool c k).
Proof. destruct c; simpl; congruence. Qed.

Lemma cell_le_not_str (c : cell) (k : Z) :
  is_str c = false -> cell_le c k = Ok (le_bool c k).
Proof. destruct c; simpl; congruence. Qed.

Lemma cell_ge_str (c : cell) (k : Z) (b : bool) :
  cell_ge c k = Ok b -> is_str c = false.
Proof. destruct c; simpl; congruence. Qed.


Lemma copyto_map (A : Type) (f : A -> Z) (g : A -> bool) (choice : Z) (l : list A) :
  copyto (map f l) choice (map g l) = map (fun a => if g a then choice else f a) l.
Proof.
  unfold copyto. induction l as [|a l IH]; simpl; [reflexivity|].
  now rewrite IH.
Qed.

Lemma repeat_map (A : Type) (z : Z) (l : list A) :
  repeat z (length l) = map (fun _ => z) l.
Proof. induction l; simpl; congruence. Qed.

(** The selection of [load_data] computes [label_of]. *)
Lemma np_select_labels (ratings : list cell) :
  np_select [map (fun c => ge_bool c 4) ratings; map (fun c => le_bool c 3) ratings]
            [1; 0] 0 (length ratings)
  = map label_of ratings.
Proof.
  cbv [np_select]. rewrite repeat_map, copyto_map, copyto_map.
  apply map_ext. intros c. unfold label_of.
  destruct (ge_bool c 4); [reflexivity|]. now destruct (le_bool c 3).
Qed.

Lemma positions_from_spec (key : pystr) (cols : list pystr) (i j : nat) :
  In j (positions_from i key cols) <->
  (i <= j /\ nth_error cols (j - i) = Some key)%nat.
Proof.
  revert i. induction cols as [|c cols IH]; intros i; simpl.
  - split; [tauto|]. intros [_ H]. now destruct (j - i)%nat.
  - destruct (PyStr.eqb c key) eqn:E.
    + apply pystr_eqb_eq in E. subst c. simpl. rewrite IH. split.
      * intros [<- | [Hle Hn]].
        -- rewrite Nat.sub_diag. auto.
        -- split; [lia|]. replace (j - i)%nat with (S (j - S i)) by lia.
           exact Hn.
      * intros [Hle Hn]. destruct (Nat.eq_dec i j) as [->|Hne]; [now left|].
        right. split; [lia|].
        replace (j - i)%nat with (S (j - S i)) in Hn by lia. exact Hn.
    + rewrite IH. split.
      * intros [Hle Hn]. split; [lia|].
        replace (j - i)%nat with (S (j - S i)) by lia. exact Hn.
      * intros [Hle Hn]. destruct (Nat.eq_dec i j) as [->|Hne].
        -- rewrite Nat.sub_diag in Hn. simpl in Hn. injection Hn as ->.
           rewrite pystr_eqb_refl in E. discriminate.
        -- split; [lia|].
           replace (j - i)%nat with (S (j - S i)) in Hn by lia. exact Hn.
Qed.

Lemma positions_spec (key : pystr) (cols : list pystr) (j : nat) :
  In j (positions key cols) <-> nth_error cols j = Some key.
Proof.
  unfold positions. rewrite positions_from_spec, Nat.sub_0_r.
  split; [tauto|]. intros H. split; [lia | exact H].
Qed.

Lemma positions_nil (key : pystr) (cols : list pystr) :
  positions key cols = [] <-> ~ In key cols.
Proof.
  split.
  - intros H Hin. apply In_nth_error in Hin. destruct Hin as [j Hj].
    apply positions_spec in Hj. rewrite H in Hj. exact Hj.
  - intros H. destruct (positions key cols) as [|j js] eqn:E; [reflexivity|].
    exfalso. apply H. apply (nth_error_In cols j).
    apply positions_spec. rewrite E. now left.
Qed.

Lemma positions_lt (key : pystr) (cols : list pystr) (j : nat) :
  In j (positions key cols) -> (j < length cols)%nat.
Proof.
  intros H. apply positions_spec in H. apply nth_error_Some. congruence.
Qed.

End Frames.

(** ** load_data *)

Section LoadData.

Lemma combine_map_r (A B C : Type) (f : A * B -> C) (g : A -> B) (l : list A) :
  map f (combine l (map g l)) = map (fun a => f (a, g a)) l.
Proof. induction l; simpl; congruence. Qed.

Lemma replace_complete (r : list cell) :
  forallb notna (map (fun c => if is_empty_str c then NaN else c) r) = complete r.
Proof.
  unfold complete. induction r as [|c r IH]; simpl; [reflexivity|].
  rewrite IH. f_equal. destruct c as [| | | | |[|]]; reflexivity.
Qed.

Lemma complete_replace (r : list cell) :
  complete r = true -> map (fun c => if is_empty_str c then NaN else c) r = r.
Proof.
  unfold complete. induction r as [|c r IH]; simpl; [reflexivity|].
  intros H. apply andb_prop in H. destruct H as [Hc Hr].
  rewrite (IH Hr). f_equal.
  destruct (is_empty_str c); [|reflexivity].
  rewrite andb_comm in Hc. discriminate.
Qed.

Lemma dropna_replace (rs : list (list cell)) :
  filter (forallb notna) (map (map (fun c => if is_empty_str c then NaN else c)) rs)
  = filter complete rs.
Proof.
  induction rs as [|r rs IH]; simpl; [reflexivity|].
  rewrite replace_complete, IH.
  destruct (complete r) eqn:E; [|reflexivity].
  now rewrite (complete_replace r E).
Qed.

Lemma set_nth_same (A : Type) (j : nat) (v d : A) (l : list A) :
  (j < length l)%nat -> nth j (set_nth j v l) d = v.
Proof.
  revert j. induction l as [|a l IH]; intros [|j]; simpl; try lia; auto.
  intros H. apply IH. lia.
Qed.

Lemma set_nth_other (A : Type) (i j : nat) (v d : A) (l : list A) :
  i <> j -> nth i (set_nth j v l) d = nth i l d.
Proof.
  revert i j. induction l as [|a l IH]; intros [|i] [|j]; simpl; try congruence.
  intros H. apply IH. congruence.
Qed.

Lemma set_nth_length (A : Type) (j : nat) (v : A) (l : list A) :
  length (set_nth j v l) = length l.
Proof. revert j. induction l as [|a l IH]; intros [|j]; simpl; auto. Qed.

(** What a successful [load_data] returns, and on which frames it
    succeeds. *)

Lemma map_nth_range (T : Type) (d : T) (pre l : list T) :
  map (fun i => nth i (pre ++ l) d) (seq (length pre) (length l)) = l.
Proof.
  revert pre. induction l as [|x l IH]; intros pre; simpl; [reflexivity|].
  rewrite app_nth2, Nat.sub_diag by lia. simpl. f_equal.
  specialize (IH (pre ++ [x])).
  rewrite <- app_assoc, length_app, Nat.add_1_r in IH. exact IH.
Qed.

Lemma range_position_range (n i : nat) :
  (i < n)%nat -> range_position n (Int (Z.of_nat i)) = Some i.
Proof.
  intros Hi. unfold range_position.
  destruct (0 <=? Z.of_nat i) eqn:E0; [|apply Z.leb_gt in E0; lia].
  destruct (Z.of_nat i <? Z.of_nat n) eqn:E1; [|apply Z.ltb_ge in E1; lia].
  simpl. now rewrite Nat2Z.id.
Qed.

Lemma range_position_lt (n : nat) (l : cell) (p : nat) :
  range_position n l = Some p -> (p < n)%nat.
Proof.
  unfold range_position. destruct l as [|z|q|b|b|s]; try discriminate.
  - destruct (0 <=? z) eqn:E0; [|discriminate].
    destruct (z <? Z.of_nat n) eqn:E1; [|discriminate].
    simpl. intros [= <-]. apply Z.leb_le in E0. apply Z.ltb_lt in E1. lia.
  - destruct (Qeq_bool q (inject_Z (Qfloor q))); [|discriminate].
    destruct (0 <=? Qfloor q) eqn:E0; [|discriminate].
    destruct (Qfloor q <? Z.of_nat n) eqn:E1; [|discriminate].
    simpl. intros [= <-]. apply Z.leb_le in E0. apply Z.ltb_lt in E1. lia.
Qed.

(** Lined up with the default index of a frame as long as itself, a series
    is left as it is. *)
Lemma reindex_default (values : list cell) :
  reindex values (RangeIndex (length values)) = values.
Proof.
  unfold reindex, RangeIndex. rewrite map_map.
  assert (Hfound : map (fun i => option_map (fun p => nth p values NaN)
                                   (range_position (length values) (Int (Z.of_nat i))))
                       (seq 0 (length values))
                   = map (fun i => Some (nth i values NaN)) (seq 0 (length values))).
  { apply map_ext_in. intros i Hi. apply in_seq in Hi.
    rewrite range_position_range by lia. reflexivity. }
  rewrite Hfound.
  assert (Hall : forallb (fun o : option cell =>
                            match o with Some _ => true | None => false end)
                         (map (fun i => Some (nth i values NaN)) (seq 0 (length values)))
                 = true).
  { apply forallb_forall. intros o Ho. apply in_map_iff in Ho.
    now destruct Ho as [i [<- _]]. }
  rewrite Hall, map_map. exact (map_nth_range NaN [] values).
Qed.

(** What a series lined up with an index holds: values of the series, the
    same turned into floats, and missing values. *)
Lemma reindex_in (values target : list cell) (a : cell) :
  In a (reindex values target) ->
  a = NaN \/ In a values \/ exists v, In v values /\ a = to_float v.
Proof.
  unfold reindex.
  set (found := map (fun l => option_map (fun p => nth p values NaN)
                                         (range_position (length values) l)) target).
  assert (Hfound : forall v, In (Some v) found -> In v values).
  { intros v Hv. apply in_map_iff in Hv. destruct Hv as [l [Hl _]].
    destruct (range_position (length values) l) as [p|] eqn:Ep; [|discriminate].
    simpl in Hl. injection Hl as <-. apply nth_In.
    eapply range_position_lt; eauto. }
  destruct (forallb _ found); intros Ha; apply in_map_iff in Ha;
    destruct Ha as [[v|] [<- Hin]]; auto.
  right. right. exists v. split; [now apply Hfound | reflexivity].
Qed.

Lemma dropna_replace_index (idx : list cell) (rs : list (list cell)) :
  map fst (filter (fun lr : cell * list cell => forallb notna (snd lr))
                  (combine idx (map (map (fun c => if is_empty_str c then NaN else c)) rs)))
  = map fst (filter (fun lr : cell * list cell => complete (snd lr)) (combine idx rs)).
Proof.
  revert rs. induction idx as [|l idx IH]; intros [|r rs]; simpl; try reflexivity.
  rewrite replace_complete. destruct (complete r); simpl; now rewrite IH.
Qed.

(** What a successful [load_data] returns, and on which frames it
    succeeds. *)
Lemma load_data_inv (read df : DataFrame) :
  load_data read = Ok df ->
  exists j,
    positions Ratings (map normalize_column (columns read)) = [j] /\
    Forall (fun r => is_str (nth j r NaN) = false) (rows read) /\
    index df = map fst (filter (fun lr : cell * list cell => complete (snd lr))
                               (combine (index read) (labelled j read))) /\
    columns df = map normalize_column (columns read) /\
    rows df = filter complete (labelled j read).
Proof.
  unfold load_data, getitem. simpl.
  destruct (positions Ratings (map normalize_column (columns read)))
    as [|j [|j' js]] eqn:Epos; simpl.
  - discriminate.
  - unfold series_ge, series_le.
    destruct (mapM (fun c => cell_ge c 4) _) as [ge4|e] eqn:Ege; simpl; [|discriminate].
    destruct (mapM (fun c => cell_le c 3) _) as [le3|e] eqn:Ele; simpl; [|discriminate].
    intros [= <-]. exists j. split; [reflexivity|].
    split.
    { apply mapM_ok_Forall in Ege. rewrite Forall_map in Ege.
      eapply Forall_impl; [|exact Ege]. simpl. intros r [b Hb].
      eapply cell_ge_str; eauto. }
    apply (mapM_ok _ (fun c => ge_bool c 4)) in Ege;
      [|intros c b; apply cell_ge_ok].
    apply (mapM_ok _ (fun c => le_bool c 3)) in Ele;
      [|intros c b; apply cell_le_ok].
    subst ge4 le3. rewrite np_select_labels.
    unfold setitem. simpl. rewrite Epos. simpl.
    rewrite dropna_replace_index, dropna_replace.
    unfold labelled, aligned_labels. rewrite !map_map. repeat split.
  - destruct (frame_ge _ 4); simpl; [|discriminate].
    destruct (frame_le _ 3); simpl; discriminate.
Qed.

Lemma load_data_ok (read : DataFrame) (j : nat) :
  positions Ratings (map normalize_column (columns read)) = [j] ->
  Forall (fun r => is_str (nth j r NaN) = false) (rows read) ->
  load_data read =
  Ok {| index := map fst (filter (fun lr : cell * list cell => complete (snd lr))
                                 (combine (index read) (labelled j read)));
        columns := map normalize_column (columns read);
        rows := filter complete (labelled j read) |}.
Proof.
  intros Epos Hnum. unfold load_data, getitem. simpl. rewrite Epos. simpl.
  unfold series_ge, series_le.
  rewrite (mapM_total _ (fun c => ge_bool c 4));
    [|rewrite Forall_map; eapply Forall_impl; [|exact Hnum];
      intros r; apply cell_ge_not_str].
  simpl.
  rewrite (mapM_total _ (fun c => le_bool c 3));
    [|rewrite Forall_map; eapply Forall_impl; [|exact Hnum];
      intros r; apply cell_le_not_str].
  simpl. rewrite np_select_labels.
  unfold setitem, dropna, replace_empty_with_nan. simpl. rewrite Epos. simpl.
  rewrite dropna_replace_index, dropna_replace.
  unfold labelled, aligned_labels. rewrite !map_map. reflexivity.
Qed.

(** Under the default index the labels are written row by row. *)
Lemma labelled_default (j : nat) (read : DataFrame) :
  default_index read -> labelled j read = map (relabel j) (rows read).
Proof.
  unfold default_index, labelled, aligned_labels. intros ->.
  rewrite <- (length_map (fun r => Int (label_of (nth j r NaN))) (rows read)).
  rewrite reindex_default, combine_map_r. reflexivity.
Qed.

(** A string among the ratings makes the comparison, and [load_data] with
    it, raise [TypeError]. *)
Lemma load_data_string_rating (read : DataFrame) (j : nat) (r : list cell) :
  positions Ratings (map normalize_column (columns read)) = [j] ->
  In r (rows read) ->
  is_str (nth j r NaN) = true ->
  load_data read = Err TypeError_compare.
Proof.
  intros Epos Hr Hstr. unfold load_data, getitem. simpl. rewrite Epos. simpl.
  unfold series_ge.
  rewrite (@mapM_err _ _ (fun c => cell_ge c 4) _ (nth j r NaN) TypeError_compare).
  - reflexivity.
  - intros c e. destruct c; simpl; congruence.
  - apply in_map_iff. eauto.
  - destruct (nth j r NaN); simpl in *; congruence.
Qed.

End LoadData.

(** ** The claims about load_data *)

Example load_data_scenario : load_data scenario = Ok scenario_loaded.
Proof. reflexivity. Qed.

(** With strings for an index no label finds its row, every label is
    missing and every row is dropped. *)
Example load_data_keyed :
  load_data keyed = Ok {| index := []; columns := [Review_text; Ratings]; rows := [] |}.
Proof. reflexivity. Qed.

Lemma scenario_well_formed : well_formed scenario.
Proof. repeat constructor. Qed.

Lemma scenario_default_index : default_index scenario.
Proof. reflexivity. Qed.

Lemma between_well_formed : well_formed between.
Proof. repeat constructor. Qed.

Lemma between_default_index : default_index between.
Proof. reflexivity. Qed.

Lemma load_data_columns (read : DataFrame) (j : nat) :
  well_formed read ->
  positions Ratings (map normalize_column (columns read)) = [j] ->
  Forall (fun r => (j < length r)%nat) (rows read).
Proof.
  intros Hwf Hpos.
  assert (Hj : (j < length (columns read))%nat).
  { rewrite <- (length_map normalize_column).
    apply (positions_lt Ratings). rewrite Hpos. now left. }
  eapply Forall_impl; [|exact Hwf]. simpl. intros r Hr. lia.
Qed.

Lemma combine_filter_snd (S T : Type) (f : T -> bool) (a : list S) (b : list T) :
  combine (map fst (filter (fun p : S * T => f (snd p)) (combine a b))) (filter f b)
  = filter (fun p : S * T => f (snd p)) (combine a b).
Proof.
  revert b. induction a as [|x a IH]; intros [|y b]; simpl; try reflexivity.
  destruct (f y); simpl; now rewrite IH.
Qed.

Lemma in_combine_range_from (T : Type) (l : list T) (s k : nat) (x : T) :
  In (Int (Z.of_nat k), x)
     (combine (map (fun i => Int (Z.of_nat i)) (seq s (length l))) l) <->
  (s <= k)%nat /\ nth_error l (k - s) = Some x.
Proof.
  revert s. induction l as [|a l IH]; intros s; simpl.
  - split; [tauto|]. intros [_ H]. now destruct (k - s)%nat.
  - rewrite IH. split.
    + intros [[= Hk <-] | [Hle Hn]].
      * apply Nat2Z.inj in Hk. subst k. rewrite Nat.sub_diag. auto.
      * split; [lia|]. replace (k - s)%nat with (S (k - S s)) by lia. exact Hn.
    + intros [Hle Hn]. destruct (Nat.eq_dec s k) as [->|Hne].
      * rewrite Nat.sub_diag in Hn. simpl in Hn. left. congruence.
      * right. split; [lia|].
        replace (k - s)%nat with (S (k - S s)) in Hn by lia. exact Hn.
Qed.

Lemma in_combine_RangeIndex (T : Type) (l : list T) (k : nat) (x : T) :
  In (Int (Z.of_nat k), x) (combine (RangeIndex (length l)) l) <->
  nth_error l k = Some x.
Proof.
  unfold RangeIndex. rewrite in_combine_range_from, Nat.sub_0_r.
  split; [tauto|]. intros H. split; [lia | exact H].
Qed.



(** What writing a value at a position of a row leaves of the row. *)
Lemma set_nth_row (j : nat) (v : cell) (r : list cell) :
  (j < length r)%nat ->
  length (set_nth j v r) = length r /\
  nth j (set_nth j v r) NaN = v /\
  forall i, i <> j -> nth i (set_nth j v r) NaN = nth i r NaN.
Proof.
  intros Hj. split; [apply set_nth_length|].
  split; [now apply set_nth_same|]. intros i Hi. now apply set_nth_other.
Qed.

(** Under the default index: the rows kept, each with its index label. *)
Lemma load_data_default (read df : DataFrame) :
  default_index read ->
  load_data read = Ok df ->
  exists j,
    positions Ratings (map normalize_column (columns read)) = [j] /\
    Forall (fun r => is_str (nth j r NaN) = false) (rows read) /\
    columns df = map normalize_column (columns read) /\
    rows df = filter complete (map (relabel j) (rows read)) /\
    combine (index df) (rows df)
    = filter (fun lr : cell * list cell => complete (snd lr))
             (combine (RangeIndex (length (rows read))) (map (relabel j) (rows read))).
Proof.
  intros Hidx Hload.
  destruct (load_data_inv _ Hload) as [j [Hpos [Hnum [Hi [Hcols Hrows]]]]].
  rewrite (labelled_default j Hidx) in Hi, Hrows.
  exists j. repeat (split; [assumption|]).
  rewrite Hi, Hrows, Hidx. apply combine_filter_snd.
Qed.




(** C2, as the specification has it, fails: the rating 3.5 satisfies neither
    condition, its label is 0 and not a missing value, and its row is kept. *)
Lemma load_data_between_kept :
  cell_ge (Float (7 # 2)) 4 = Ok false /\
  cell_le (Float (7 # 2)) 3 = Ok false /\
  load_data between =
  Ok {| index := [Int 0];
        columns := [Review_text; Ratings];
        rows := [ [Str (lit "fine"); Int 0] ] |}.
Proof. repeat split. Qed.

(** C2, amended. In a frame that carries the default index, a rating for
    which neither [rating >= 4] nor [rating <= 3] holds gets the label 0,
    the default of the selection: the row at position [k] is retained, under
    the index label [k], with 0 for a label and its other cells as they
    were, exactly when, with that label, it has no missing and no empty
    cell, and nothing else is retained under that index label. *)
Theorem load_data_neither_condition (read df : DataFrame) (j k : nat) (r : list cell) :
  default_index read ->
  well_formed read ->
  load_data read = Ok df ->
  positions Ratings (columns df) = [j] ->
  nth_error (rows read) k = Some r ->
  cell_ge (nth j r NaN) 4 = Ok false ->
  cell_le (nth j r NaN) 3 = Ok false ->
  (complete (set_nth j (Int 0) r) = true <-> In (set_nth j (Int 0) r) (rows df)) /\
  (complete (set_nth j (Int 0) r) = true <->
   exists r', In (Int (Z.of_nat k), r') (combine (index df) (rows df))) /\
  (forall r', In (Int (Z.of_nat k), r') (combine (index df) (rows df)) ->
              r' = set_nth j (Int 0) r /\
              length r' = length r /\
              nth j r' NaN = Int 0 /\
              forall i, i <> j -> nth i r' NaN = nth i r NaN).
Proof.
  intros Hidx Hwf Hload Hj Hk Hge _.
  destruct (load_data_default Hidx Hload) as [j' [Hpos [_ [Hcols [Hrows Hboth]]]]].
  rewrite Hcols, Hpos in Hj. injection Hj as ->.
  pose proof (load_data_columns Hwf Hpos) as Hlen.
  rewrite Forall_forall in Hlen.
  assert (Hr : In r (rows read)) by (eapply nth_error_In; eauto).
  assert (Hrel : relabel j r = set_nth j (Int 0) r).
  { unfold relabel, label_of. apply cell_ge_ok in Hge. now rewrite <- Hge. }
  assert (Hat : forall r', In (Int (Z.of_nat k), r')
                              (combine (RangeIndex (length (rows read)))
                                       (map (relabel j) (rows read)))
                           <-> r' = set_nth j (Int 0) r).
  { intros r'. rewrite <- (length_map (relabel j) (rows read)).
    rewrite in_combine_RangeIndex, nth_error_map, Hk. simpl. rewrite Hrel.
    split; congruence. }
  split; [|split].
  - rewrite Hrows, filter_In. split.
    + intros Hc. split; [|exact Hc]. rewrite <- Hrel. now apply in_map.
    + tauto.
  - split.
    + intros Hc. exists (set_nth j (Int 0) r).
      rewrite Hboth, filter_In, Hat. simpl. tauto.
    + intros [r' Hin]. rewrite Hboth, filter_In, Hat in Hin. simpl in Hin.
      destruct Hin as [-> Hc]. exact Hc.
  - intros r'. rewrite Hboth, filter_In, Hat. intros [-> _].
    split; [reflexivity|]. apply set_nth_row. now apply Hlen.
Qed.

Lemma load_data_neither_condition_witness :
  default_index between /\
  well_formed between /\
  (complete (set_nth 1 (Int 0) [Str (lit "fine"); Float (7 # 2)]) = true <->
   In (set_nth 1 (Int 0) [Str (lit "fine"); Float (7 # 2)])
      [ [Str (lit "fine"); Int 0] ]) /\
  (complete (set_nth 1 (Int 0) [Str (lit "fine"); Float (7 # 2)]) = true <->
   exists r', In (Int (Z.of_nat 0), r')
                 (combine [Int 0] [ [Str (lit "fine"); Int 0] ])) /\
  (forall r', In (Int (Z.of_nat 0), r')
                 (combine [Int 0] [ [Str (lit "fine"); Int 0] ]) ->
              r' = set_nth 1 (Int 0) [Str (lit "fine"); Float (7 # 2)] /\
              length r' = length [Str (lit "fine"); Float (7 # 2)] /\
              nth 1 r' NaN = Int 0 /\
              forall i, i <> 1%nat ->
                        nth i r' NaN = nth i [Str (lit "fine"); Float (7 # 2)] NaN).
Proof.
  split; [exact between_default_index|].
  split; [exact between_well_formed|].
  apply (@load_data_neither_condition between
           {| index := [Int 0];
              columns := [Review_text; Ratings];
              rows := [ [Str (lit "fine"); Int 0] ] |}
           1%nat 0%nat [Str (lit "fine"); Float (7 # 2)]).
  - exact between_default_index.
  - exact between_well_formed.
  - reflexivity.
  - reflexivity.
  - reflexivity.
  - reflexivity.
  - reflexivity.
Defined.

(** C3. In the frame [load_data] returns, every column name is the
    normalised name of the column read, has no white space at either end and
    no space inside, and no cell of any row is missing or an empty string. *)
Theorem load_data_clean (read df : DataFrame) :
  load_data read = Ok df ->
  columns df = map normalize_column (columns read) /\
  Forall (fun col => trimmed col /\ ~ In space col) (columns df) /\
  Forall (Forall (fun c => c <> NaN /\ c <> Str [])) (rows df).
Proof.
  intros Hload.
  destruct (load_data_inv _ Hload) as [j [_ [_ [_ [Hcols Hrows]]]]].
  split; [exact Hcols|]. split.
  - rewrite Hcols, Forall_map. apply Forall_forall. intros col _.
    apply normalize_column_clean.
  - rewrite Hrows. apply Forall_forall. intros r Hr.
    apply filter_In in Hr. destruct Hr as [_ Hc].
    unfold complete in Hc. rewrite forallb_forall in Hc.
    apply Forall_forall. intros c Hin. specialize (Hc c Hin).
    apply andb_prop in Hc. destruct Hc as [Hna Hne].
    split; intros ->; discriminate.
Qed.

Lemma load_data_clean_witness :
  load_data scenario = Ok scenario_loaded /\
  columns scenario_loaded = map normalize_column (columns scenario) /\
  Forall (fun col => trimmed col /\ ~ In space col) (columns scenario_loaded) /\
  Forall (Forall (fun c => c <> NaN /\ c <> Str [])) (rows scenario_loaded).
Proof.
  split; [reflexivity|].
  apply (@load_data_clean scenario scenario_loaded). reflexivity.
Defined.

Lemma getitem_unique (df : DataFrame) (key : pystr) (j : nat) :
  positions key (columns df) = [j] ->
  getitem df key = Ok (Series (map (fun r => nth j r NaN) (rows df))).
Proof. unfold getitem. now intros ->. Qed.

Lemma getitem_present (df : DataFrame) (key : pystr) :
  In key (columns df) -> exists sel, getitem df key = Ok sel.
Proof.
  intros Hin. unfold getitem.
  destruct (positions key (columns df)) as [|j [|j' js]] eqn:E; eauto.
  apply positions_nil in E. contradiction.
Qed.

Lemma getitem_absent (df : DataFrame) (key : pystr) :
  ~ In key (columns df) -> getitem df key = Err (KeyError key).
Proof.
  intros Hin. apply positions_nil in Hin. unfold getitem. now rewrite Hin.
Qed.

Lemma label_of_binary (c : cell) : label_of c = 0 \/ label_of c = 1.
Proof. unfold label_of. destruct (ge_bool c 4); auto. Qed.

(** A row of [labelled] is a row read with, at position [j], a missing
    value or a label 0 or 1. *)
Lemma labelled_rows (j : nat) (read : DataFrame) (r' : list cell) :
  In r' (labelled j read) ->
  exists r a, In r (rows read) /\ r' = set_nth j a r /\ (a = NaN \/ binary_label a).
Proof.
  unfold labelled, aligned_labels. intros Hin.
  apply in_map_iff in Hin. destruct Hin as [[r a] [<- Hin]]. simpl.
  exists r, a. split; [eapply in_combine_l; eauto|]. split; [reflexivity|].
  apply in_combine_r in Hin. apply reindex_in in Hin.
  unfold binary_label.
  destruct Hin as [-> | [Hin | [v [Hin ->]]]]; [now left | |];
    apply in_map_iff in Hin; destruct Hin as [r0 [<- _]];
    destruct (label_of_binary (nth j r0 NaN)) as [-> | ->]; simpl; auto.
Qed.

(** C10. [load_data] adds no column: the frame it returns has the columns of
    the frame read, one cell per column in every row, and its 'Ratings'
    column holds the labels 0 and 1 in place of the ratings (integers when
    the frame read carries the default index); when the frame has a
    'Review_text' column the workflow takes its features from that column and
    its target from 'Ratings', this sequence of labels, and otherwise it
    raises [KeyError]. *)
Theorem load_data_overwrites_ratings (read df : DataFrame) :
  well_formed read ->
  load_data read = Ok df ->
  length (columns df) = length (columns read) /\
  well_formed df /\
  exists j y,
    positions Ratings (columns df) = [j] /\
    y = map (fun r => nth j r NaN) (rows df) /\
    Forall binary_label y /\
    (default_index read -> Forall (fun c => c = Int 0 \/ c = Int 1) y) /\
    getitem df Ratings = Ok (Series y) /\
    (In Review_text (columns df) ->
     exists X, getitem df Review_text = Ok X /\
               workflow_features read = Ok (X, Series y)) /\
    (~ In Review_text (columns df) ->
     workflow_features read = Err (KeyError Review_text)).
Proof.
  intros Hwf Hload.
  destruct (load_data_inv _ Hload) as [j [Hpos [Hnum [_ [Hcols Hrows]]]]].
  pose proof (load_data_columns Hwf Hpos) as Hlen.
  rewrite Forall_forall in Hlen.
  split; [rewrite Hcols; apply length_map|].
  split.
  { unfold well_formed. rewrite Hrows, Hcols, length_map.
    apply Forall_forall. intros r' Hr'.
    apply filter_In in Hr'. destruct Hr' as [Hr' _].
    apply labelled_rows in Hr'. destruct Hr' as [r [a [Hr [-> _]]]].
    rewrite set_nth_length.
    unfold well_formed in Hwf. rewrite Forall_forall in Hwf. now apply Hwf. }
  exists j, (map (fun r => nth j r NaN) (rows df)).
  assert (Hget : getitem df Ratings
                 = Ok (Series (map (fun r => nth j r NaN) (rows df)))).
  { apply getitem_unique. now rewrite Hcols. }
  split; [now rewrite Hcols|].
  split; [reflexivity|].
  split.
  { rewrite Forall_map, Hrows. apply Forall_forall. intros r' Hr'.
    apply filter_In in Hr'. destruct Hr' as [Hr' Hc].
    apply labelled_rows in Hr'. destruct Hr' as [r [a [Hr [-> Ha]]]].
    specialize (Hlen r Hr). rewrite set_nth_same by exact Hlen.
    destruct Ha as [-> | Ha]; [|exact Ha].
    unfold complete in Hc. rewrite forallb_forall in Hc.
    assert (Hin : In NaN (set_nth j NaN r)).
    { rewrite <- (@set_nth_same cell j NaN NaN r Hlen) at 1.
      apply nth_In. now rewrite set_nth_length. }
    specialize (Hc _ Hin). discriminate Hc. }
  split.
  { intros Hidx. rewrite Forall_map, Hrows, (labelled_default j Hidx).
    apply Forall_forall. intros r' Hr'.
    apply filter_In in Hr'. destruct Hr' as [Hr' _].
    apply in_map_iff in Hr'. destruct Hr' as [r [<- Hr]].
    unfold relabel. rewrite set_nth_same by now apply Hlen.
    destruct (label_of_binary (nth j r NaN)) as [-> | ->]; auto. }
  split; [exact Hget|].
  unfold workflow_features, input_output. rewrite Hload. simpl. split.
  - intros Hin. destruct (getitem_present df Review_text Hin) as [X HX].
    exists X. split; [exact HX|]. rewrite HX. simpl. now rewrite Hget.
  - intros Hno. now rewrite (getitem_absent df Review_text Hno).
Qed.

Lemma load_data_overwrites_ratings_witness :
  well_formed scenario /\
  default_index scenario /\
  load_data scenario = Ok scenario_loaded /\
  In Review_text (columns scenario_loaded) /\
  workflow_features scenario =
  Ok (Series [Str (lit "great"); Str (lit "poor"); Str (lit "average"); Str (lit "good")],
      Series [Int 1; Int 0; Int 0; Int 1]) /\
  length (columns scenario_loaded) = length (columns scenario) /\
  well_formed scenario_loaded /\
  exists j y,
    positions Ratings (columns scenario_loaded) = [j] /\
    y = map (fun r => nth j r NaN) (rows scenario_loaded) /\
    Forall binary_label y /\
    (default_index scenario -> Forall (fun c => c = Int 0 \/ c = Int 1) y) /\
    getitem scenario_loaded Ratings = Ok (Series y) /\
    (In Review_text (columns scenario_loaded) ->
     exists X, getitem scenario_loaded Review_text = Ok X /\
               workflow_features scenario = Ok (X, Series y)) /\
    (~ In Review_text (columns scenario_loaded) ->
     workflow_features scenario = Err (KeyError Review_text)).
Proof.
  split; [exact scenario_well_formed|].
  split; [exact scenario_default_index|].
  split; [reflexivity|].
  split; [simpl; auto|].
  split; [reflexivity|].
  apply (@load_data_overwrites_ratings scenario scenario_loaded).
  - exact scenario_well_formed.
  - reflexivity.
Defined.

Example workflow_features_scenario :
  workflow_features scenario =
  Ok (Series [Str (lit "great"); Str (lit "poor"); Str (lit "average"); Str (lit "good")],
      Series [Int 1; Int 0; Int 0; Int 1]).
Proof. reflexivity. Qed.

(** ** input_output *)

Section InputOutput.

Lemma pick_cells_named (key : pystr) (cols : list pystr) (r : list cell) (i : nat) :
  length r = length cols ->
  map (fun j => nth (j - i) r NaN) (positions_from i key cols)
  = cells_named key cols r.
Proof.
  unfold cells_named. revert r i.
  induction cols as [|c cols IH]; intros [|a r] i Hlen;
    try discriminate Hlen; [reflexivity|].
  injection Hlen as Hlen.
  assert (Htail : map (fun j => nth (j - i) (a :: r) NaN)
                      (positions_from (S i) key cols)
                  = map (fun j => nth (j - S i) r NaN)
                        (positions_from (S i) key cols)).
  { apply map_ext_in. intros j Hj. apply positions_from_spec in Hj.
    destruct Hj as [Hle _].
    replace (j - i)%nat with (S (j - S i)) by lia. reflexivity. }
  cbn [positions_from combine filter fst].
  destruct (PyStr.eqb c key); cbn [map snd].
  - rewrite Nat.sub_diag, Htail, IH by exact Hlen. reflexivity.
  - rewrite Htail, IH by exact Hlen. reflexivity.
Qed.

Lemma getitem_rows (df : DataFrame) (key : pystr) (sel : selection) :
  getitem df key = Ok sel ->
  selection_rows sel = map (pick (positions key (columns df))) (rows df).
Proof.
  unfold getitem.
  destruct (positions key (columns df)) as [|j [|j' js]]; intros [= <-]; simpl.
  - now rewrite map_map.
  - reflexivity.
Qed.

Lemma getitem_projection (df : DataFrame) (key : pystr) (sel : selection) :
  well_formed df ->
  getitem df key = Ok sel ->
  selection_rows sel = map (cells_named key (columns df)) (rows df).
Proof.
  intros Hwf Hget. rewrite (getitem_rows _ _ Hget).
  apply map_ext_in. intros r Hr.
  unfold well_formed in Hwf. rewrite Forall_forall in Hwf.
  rewrite <- (pick_cells_named key (columns df) r 0) by now apply Hwf.
  unfold pick, positions. apply map_ext. intros j. now rewrite Nat.sub_0_r.
Qed.

End InputOutput.

(** C4. [input_output] raises [KeyError] when the input column, or else the
    output column, is not a column of the frame; otherwise it returns [X] and
    [y] whose rows are, in the order of the frame's rows, the cells that stand
    under the input name and under the output name. *)
Theorem input_output_projection (data : DataFrame) (input output : pystr) :
  well_formed data ->
  (~ In input (columns data) ->
   input_output data input output = Err (KeyError input)) /\
  (In input (columns data) -> ~ In output (columns data) ->
   input_output data input output = Err (KeyError output)) /\
  (In input (columns data) -> In output (columns data) ->
   exists X y,
     input_output data input output = Ok (X, y) /\
     selection_rows X = map (cells_named input (columns data)) (rows data) /\
     selection_rows y = map (cells_named output (columns data)) (rows data)).
Proof.
  intros Hwf. unfold input_output. repeat split.
  - intros Hin. now rewrite (getitem_absent _ _ Hin).
  - intros Hin Hout. destruct (getitem_present _ _ Hin) as [X ->]. simpl.
    now rewrite (getitem_absent _ _ Hout).
  - intros Hin Hout.
    destruct (getitem_present _ _ Hin) as [X HX].
    destruct (getitem_present _ _ Hout) as [y Hy].
    exists X, y. rewrite HX, Hy. simpl. split; [reflexivity|].
    split; now apply getitem_projection.
Qed.

Lemma input_output_projection_witness :
  well_formed scenario_loaded /\
  In Review_text (columns scenario_loaded) /\
  In Ratings (columns scenario_loaded) /\
  ~ In (lit "Review text") (columns scenario_loaded) /\
  input_output scenario_loaded (lit "Review text") Ratings
  = Err (KeyError (lit "Review text")) /\
  exists X y,
    input_output scenario_loaded Review_text Ratings = Ok (X, y) /\
    selection_rows X
    = map (cells_named Review_text (columns scenario_loaded)) (rows scenario_loaded) /\
    selection_rows y
    = map (cells_named Ratings (columns scenario_loaded)) (rows scenario_loaded).
Proof.
  assert (Hwf : well_formed scenario_loaded) by (repeat constructor).
  assert (Hin : In Review_text (columns scenario_loaded)) by (simpl; auto).
  assert (Hout : In Ratings (columns scenario_loaded)) by (simpl; auto).
  assert (Hno : ~ In (lit "Review text") (columns scenario_loaded)).
  { simpl. intros [H | [H | []]]; discriminate H. }
  split; [exact Hwf|]. split; [exact Hin|]. split; [exact Hout|].
  split; [exact Hno|].
  split.
  - exact (proj1 (@input_output_projection scenario_loaded (lit "Review text")
                    Ratings Hwf) Hno).
  - exact (proj2 (proj2 (@input_output_projection scenario_loaded Review_text
                           Ratings Hwf)) Hin Hout).
Defined.
(** ** split_train_test *)

Section SplitTrainTest.

Variable R : RandomState.

Lemma safe_indexing_take (T : Type) (a : list T) (indices : list nat) (l : list T) :
  safe_indexing a indices = Ok l -> l = take a indices.
Proof.
  unfold safe_indexing, take. revert l.
  induction indices as [|i indices IH]; simpl; intros l.
  - now intros [= <-].
  - destruct (nth_error a i) as [x|]; simpl; [|discriminate].
    destruct (mapM _ indices) as [l'|e]; simpl; [|discriminate].
    intros [= <-]. f_equal. now apply IH.
Qed.

Lemma safe_indexing_err (T : Type) (a : list T) (indices : list nat) (e : exn) :
  safe_indexing a indices = Err e -> e = IndexError.
Proof.
  unfold safe_indexing.
  induction indices as [|i indices IH]; simpl; [discriminate|].
  destruct (nth_error a i) as [x|]; simpl; [|now intros [= <-]].
  destruct (mapM _ indices) as [l'|e']; simpl; [discriminate|].
  intros [= <-]. now apply IH.
Qed.

Lemma safe_indexing_in_range (T : Type) (a : list T) (indices : list nat) :
  Forall (fun i => (i < length a)%nat) indices ->
  safe_indexing a indices = Ok (take a indices).
Proof.
  unfold safe_indexing, take.
  induction 1 as [|i indices Hi _ IH]; simpl; [reflexivity|].
  destruct (nth_error a i) as [x|] eqn:E.
  - simpl. now rewrite IH.
  - apply nth_error_None in E. lia.
Qed.

Lemma take_seq_from (T : Type) (pre a : list T) :
  take (pre ++ a) (seq (length pre) (length a)) = a.
Proof.
  unfold take. revert pre. induction a as [|x a IH]; intros pre; simpl.
  - reflexivity.
  - rewrite nth_error_app2, Nat.sub_diag by lia. simpl. f_equal.
    specialize (IH (pre ++ [x])).
    rewrite <- app_assoc, length_app, Nat.add_1_r in IH. exact IH.
Qed.

Lemma take_all (T : Type) (a : list T) : take a (seq 0 (length a)) = a.
Proof. exact (take_seq_from [] a). Qed.

Lemma take_app (T : Type) (a : list T) (i1 i2 : list nat) :
  take a (i1 ++ i2) = take a i1 ++ take a i2.
Proof. unfold take. apply flat_map_app. Qed.

Lemma take_permutation (T : Type) (a : list T) (indices : list nat) :
  Permutation indices (seq 0 (length a)) -> Permutation (take a indices) a.
Proof.
  intros H. rewrite <- (take_all a) at 2. unfold take.
  now apply Permutation_flat_map.
Qed.

Lemma NoDup_app_disjoint (T : Type) (l1 l2 : list T) (a : T) :
  NoDup (l1 ++ l2) -> In a l1 -> ~ In a l2.
Proof.
  induction l1 as [|x l1 IH]; simpl; [tauto|].
  intros Hnd [-> | Hin] H2.
  - apply NoDup_cons_iff in Hnd. apply (proj1 Hnd), in_or_app. now right.
  - apply NoDup_cons_iff in Hnd. now apply IH.
Qed.

Lemma validate_shuffle_split_ok (n : nat) (test_size : size) (n_train n_test : nat) :
  validate_shuffle_split n test_size = Ok (n_train, n_test) ->
  (0 < n_train /\ n_train + n_test = n)%nat.
Proof.
  unfold validate_shuffle_split.
  destruct (match match test_size with Unset => Fraction (1 # 4) | _ => test_size end with
            | Fraction q => _ | Count k => _ | Unset => _ end) as [t|e];
    simpl; [|discriminate].
  destruct (n - t =? 0)%nat eqn:E; [discriminate|].
  intros [= <- <-]. apply Nat.eqb_neq in E. lia.
Qed.

Lemma shuffle_split_partition (perm : list nat) (n n_train n_test : nat) :
  Permutation perm (seq 0 n) ->
  (n_train + n_test = n)%nat ->
  let (train, test) := shuffle_split perm n_train n_test in
  Permutation (train ++ test) (seq 0 n) /\
  length train = n_train /\ length test = n_test.
Proof.
  intros Hperm Hn. unfold shuffle_split.
  pose proof (Permutation_length Hperm) as Hlen. rewrite length_seq in Hlen.
  rewrite firstn_all2 by (rewrite length_skipn; lia).
  split; [|split].
  - rewrite Permutation_app_comm, firstn_skipn. exact Hperm.
  - rewrite length_skipn. lia.
  - rewrite length_firstn. lia.
Qed.

(** What a successful [train_test_indices] returns, given that
    [permutation] does return an arrangement of [range(n)]. *)
Lemma train_test_indices_partition (global : rng R) (n_x n_y : nat)
    (test_size : size) (random_state : seed_arg) (train test : list nat) :
  (forall g n, Permutation (fst (permutation R g n)) (seq 0 n)) ->
  fst (train_test_indices R global n_x n_y test_size random_state)
  = Ok (train, test) ->
  n_x = n_y /\ (0 < length train)%nat /\
  Permutation (train ++ test) (seq 0 n_x).
Proof.
  intros Hperm. unfold train_test_indices.
  destruct (validate_params test_size random_state) as [u|e]; [|discriminate].
  destruct (n_x =? n_y)%nat eqn:En; simpl; [|discriminate].
  apply Nat.eqb_eq in En.
  destruct (validate_shuffle_split n_x test_size) as [[n_train n_test]|e] eqn:Ev;
    simpl; [|discriminate].
  apply validate_shuffle_split_ok in Ev. destruct Ev as [Hpos Hsum].
  destruct (check_random_state R global random_state) as [[g is_global]|e];
    simpl; [|discriminate].
  specialize (Hperm g n_x).
  destruct (permutation R g n_x) as [perm g']. simpl in *.
  pose proof (shuffle_split_partition n_train n_test Hperm Hsum) as Hsp.
  destruct (shuffle_split perm n_train n_test) as [tr te].
  intros [= <- <-]. destruct Hsp as [Hp [Htr Hte]].
  split; [exact En|]. split; [lia | exact Hp].
Qed.

(** The checks on the arguments pass whenever the later checks of the size
    and of the seed do. *)
Lemma validate_params_ok (global : rng R) (n : nat) (test_size : size)
    (random_state : seed_arg) (sizes : nat * nat) (g : rng R * bool) :
  validate_shuffle_split n test_size = Ok sizes ->
  check_random_state R global random_state = Ok g ->
  validate_params test_size random_state = Ok tt.
Proof.
  unfold validate_shuffle_split, check_random_state, validate_params.
  intros Hv Hg.
  assert (Hs : match random_state with
               | Seed s => if (0 <=? s) && (s <? 2 ^ 32) then Ok tt
                           else Err ValueError_seed
               | Unseeded => Ok tt
               end = Ok tt).
  { destruct random_state as [s|]; [|reflexivity].
    destruct ((0 <=? s) && (s <? 2 ^ 32)); [reflexivity | discriminate]. }
  destruct test_size as [q|k|]; simpl in *.
  - destruct (Qle_bool q 0 || Qle_bool 1 q); [discriminate|]. exact Hs.
  - destruct (k <=? 0); [|exact Hs].
    rewrite orb_true_r in Hv. discriminate.
  - exact Hs.
Qed.

End SplitTrainTest.

(** C5. With an integer seed, [split_train_test] returns the same thing
    whatever the state of numpy's global generator at the two calls, and
    leaves that state as it found it: two calls on the same [X], [y],
    [test_size] and seed agree. *)
Theorem split_train_test_deterministic (A B : Type) (R : RandomState)
    (global1 global2 : rng R) (X : list A) (y : list B)
    (test_size : size) (seed : Z) :
  fst (split_train_test R global1 X y test_size (Seed seed))
  = fst (split_train_test R global2 X y test_size (Seed seed)) /\
  snd (split_train_test R global1 X y test_size (Seed seed)) = global1.
Proof.
  unfold split_train_test, train_test_split, train_test_indices,
    check_random_state.
  destruct (validate_params test_size (Seed seed)); [|split; reflexivity].
  destruct (negb (length X =? length y)%nat); [split; reflexivity|].
  destruct (validate_shuffle_split (length X) test_size) as [[n_train n_test]|e];
    [|split; reflexivity].
  destruct ((0 <=? seed) && (seed <? 2 ^ 32)); [|split; reflexivity].
  destruct (permutation R (seeded R seed) (length X)) as [perm g'].
  split; reflexivity.
Qed.

(** Without a seed the split follows the global generator: two calls need
    not agree. *)
Example split_train_test_unseeded :
  fst (split_train_test rotating 0%nat [10; 20; 30; 40] [1; 0; 0; 1]
         default_test_size Unseeded)
  = Ok ([20; 30; 40], [10], [0; 0; 1], [1]) /\
  fst (split_train_test rotating 1%nat [10; 20; 30; 40] [1; 0; 0; 1]
         default_test_size Unseeded)
  = Ok ([30; 40; 10], [20], [0; 1; 1], [0]).
Proof. split; reflexivity. Qed.

Lemma rotating_permutation (g : rng rotating) (n : nat) :
  Permutation (fst (permutation rotating g n)) (seq 0 n).
Proof.
  simpl. rewrite Permutation_app_comm, firstn_skipn. reflexivity.
Qed.

(** C6. When [split_train_test] returns, the train and test parts are taken
    at two lists of positions that share no position and together hold every
    position of the input exactly once; so the sizes of the two parts add up
    to the size of the input and the two parts together are the input,
    rearranged. *)
Theorem split_train_test_partition (A B : Type) (R : RandomState)
    (global : rng R) (X : list A) (y : list B) (test_size : size)
    (random_state : seed_arg)
    (X_train X_test : list A) (y_train y_test : list B) :
  (forall g n, Permutation (fst (permutation R g n)) (seq 0 n)) ->
  fst (split_train_test R global X y test_size random_state)
  = Ok (X_train, X_test, y_train, y_test) ->
  (length X_train + length X_test = length X)%nat /\
  (length y_train + length y_test = length y)%nat /\
  Permutation (X_train ++ X_test) X /\
  Permutation (y_train ++ y_test) y /\
  exists train test,
    fst (train_test_indices R global (length X) (length y) test_size random_state)
    = Ok (train, test) /\
    X_train = take X train /\ X_test = take X test /\
    y_train = take y train /\ y_test = take y test /\
    NoDup (train ++ test) /\
    (forall i, In i train -> ~ In i test) /\
    (forall i, (i < length X)%nat <-> In i train \/ In i test).
Proof.
  intros Hperm. unfold split_train_test, train_test_split.
  destruct (train_test_indices R global (length X) (length y) test_size random_state)
    as [indices g'] eqn:Eix.
  simpl. destruct indices as [[train test]|e]; simpl; [|discriminate].
  destruct (safe_indexing X train) as [Xtr|e] eqn:E1; simpl; [|discriminate].
  destruct (safe_indexing X test) as [Xte|e] eqn:E2; simpl; [|discriminate].
  destruct (safe_indexing y train) as [ytr|e] eqn:E3; simpl; [|discriminate].
  destruct (safe_indexing y test) as [yte|e] eqn:E4; simpl; [|discriminate].
  intros [= <- <- <- <-].
  apply safe_indexing_take in E1, E2, E3, E4. subst Xtr Xte ytr yte.
  assert (Hix : fst (train_test_indices R global (length X) (length y)
                       test_size random_state) = Ok (train, test))
    by now rewrite Eix.
  destruct (train_test_indices_partition _ _ _ _ _ _ Hperm Hix)
    as [Hlen [_ Hp]].
  assert (HX : Permutation (take X train ++ take X test) X).
  { rewrite <- take_app. now apply take_permutation. }
  assert (Hy : Permutation (take y train ++ take y test) y).
  { rewrite <- take_app. apply take_permutation. now rewrite <- Hlen. }
  assert (Hnd : NoDup (train ++ test)).
  { apply (Permutation_NoDup (Permutation_sym Hp)), seq_NoDup. }
  split; [rewrite <- length_app; now apply Permutation_length|].
  split; [rewrite <- length_app; now apply Permutation_length|].
  split; [exact HX|]. split; [exact Hy|].
  exists train, test. repeat (split; [reflexivity|]).
  split; [exact Hnd|]. split.
  - intros i. now apply NoDup_app_disjoint.
  - intros i. rewrite <- in_app_iff. split.
    + intros Hi. apply (Permutation_in _ (Permutation_sym Hp)).
      apply in_seq. lia.
    + intros Hi. apply (Permutation_in _ Hp) in Hi. apply in_seq in Hi. lia.
Qed.

Lemma split_train_test_partition_witness :
  (forall g n, Permutation (fst (permutation rotating g n)) (seq 0 n)) /\
  fst (split_train_test rotating 0%nat [10; 20; 30; 40] [1; 0; 0; 1]
         default_test_size default_random_state)
  = Ok ([40; 10; 20], [30], [1; 1; 0], [0]) /\
  (length [40; 10; 20] + length [30] = length [10; 20; 30; 40])%nat /\
  (length [1; 1; 0] + length [0] = length [1; 0; 0; 1])%nat /\
  Permutation ([40; 10; 20] ++ [30]) [10; 20; 30; 40] /\
  Permutation ([1; 1; 0] ++ [0]) [1; 0; 0; 1] /\
  exists train test,
    fst (train_test_indices rotating 0%nat (length [10; 20; 30; 40])
           (length [1; 0; 0; 1]) default_test_size default_random_state)
    = Ok (train, test) /\
    [40; 10; 20] = take [10; 20; 30; 40] train /\
    [30] = take [10; 20; 30; 40] test /\
    [1; 1; 0] = take [1; 0; 0; 1] train /\
    [0] = take [1; 0; 0; 1] test /\
    NoDup (train ++ test) /\
    (forall i, In i train -> ~ In i test) /\
    (forall i, (i < length [10; 20; 30; 40])%nat <-> In i train \/ In i test).
Proof.
  split; [exact rotating_permutation|].
  split; [reflexivity|].
  apply (@split_train_test_partition Z Z rotating 0%nat
           [10; 20; 30; 40] [1; 0; 0; 1] default_test_size default_random_state
           [40; 10; 20] [30] [1; 1; 0] [0]).
  - exact rotating_permutation.
  - reflexivity.
Defined.

(** With a permutation for [permutation], equal lengths, an accepted
    [test_size] and an accepted seed, the split returns. *)
Lemma split_train_test_returns (A B : Type) (R : RandomState) (global : rng R)
    (X : list A) (y : list B) (test_size : size) (random_state : seed_arg)
    (sizes : nat * nat) (g : rng R * bool) :
  (forall g n, Permutation (fst (permutation R g n)) (seq 0 n)) ->
  length X = length y ->
  validate_shuffle_split (length X) test_size = Ok sizes ->
  check_random_state R global random_state = Ok g ->
  exists parts, fst (split_train_test R global X y test_size random_state) = Ok parts.
Proof.
  intros Hperm Hlen Hv Hg.
  destruct (fst (train_test_indices R global (length X) (length y)
                   test_size random_state)) as [[train test]|e] eqn:Eix.
  - destruct (train_test_indices_partition _ _ _ _ _ _ Hperm Eix) as [_ [_ Hp]].
    assert (Hin : Forall (fun i => (i < length X)%nat) (train ++ test)).
    { apply Forall_forall. intros i Hi. apply (Permutation_in _ Hp) in Hi.
      apply in_seq in Hi. lia. }
    apply Forall_app in Hin. destruct Hin as [Htr Hte].
    unfold split_train_test, train_test_split.
    destruct (train_test_indices R global (length X) (length y)
                test_size random_state) as [indices g'].
    simpl in Eix. subst indices. simpl.
    rewrite (safe_indexing_in_range X Htr), (safe_indexing_in_range X Hte).
    rewrite Hlen in Htr, Hte.
    rewrite (safe_indexing_in_range y Htr), (safe_indexing_in_range y Hte).
    simpl. eauto.
  - exfalso. revert Eix. unfold train_test_indices.
    rewrite (@validate_params_ok R global (length X) test_size random_state sizes g Hv Hg).
    rewrite Hlen, Nat.eqb_refl. simpl. rewrite <- Hlen, Hv.
    destruct sizes as [n_train n_test]. rewrite Hg. destruct g as [g0 is_global].
    destruct (permutation R g0 (length X)). discriminate.
Qed.

Lemma validate_shuffle_split_class (n : nat) (test_size : size) (e : exn) :
  validate_shuffle_split n test_size = Err e -> exn_class e = "ValueError"%string.
Proof.
  unfold validate_shuffle_split.
  destruct (match match test_size with Unset => Fraction (1 # 4) | _ => test_size end with
            | Fraction q => _ | Count k => _ | Unset => _ end) as [t|e0] eqn:Et; simpl.
  - destruct (n - t =? 0)%nat; [|discriminate]. now intros [= <-].
  - intros [= <-]. destruct test_size as [q|k|]; simpl in Et.
    + destruct (_ || _); [|discriminate]. now injection Et as <-.
    + destruct (_ || _); [|discriminate]. now injection Et as <-.
    + discriminate.
Qed.

Lemma validate_params_class (test_size : size) (random_state : seed_arg) (e : exn) :
  validate_params test_size random_state = Err e -> exn_class e = "ValueError"%string.
Proof.
  unfold validate_params.
  destruct test_size as [q|k|]; cbn [bind].
  - destruct (Qle_bool q 0 || Qle_bool 1 q); cbn [bind]; [now intros [= <-]|].
    destruct random_state as [s|]; [|discriminate].
    destruct ((0 <=? s) && (s <? 2 ^ 32)); [discriminate | now intros [= <-]].
  - destruct (k <=? 0); cbn [bind]; [now intros [= <-]|].
    destruct random_state as [s|]; [|discriminate].
    destruct ((0 <=? s) && (s <? 2 ^ 32)); [discriminate | now intros [= <-]].
  - destruct random_state as [s|]; [|discriminate].
    destruct ((0 <=? s) && (s <? 2 ^ 32)); [discriminate | now intros [= <-]].
Qed.

Lemma check_random_state_class (R : RandomState) (global : rng R)
    (random_state : seed_arg) (e : exn) :
  check_random_state R global random_state = Err e -> e = ValueError_seed.
Proof.
  unfold check_random_state. destruct random_state as [s|]; [|discriminate].
  destruct ((0 <=? s) && (s <? 2 ^ 32)); [discriminate | now intros [= <-]].
Qed.

(** A failure of the split that is not a failure of the indexing has the
    class [ValueError]. *)
Lemma train_test_indices_class (R : RandomState) (global : rng R) (n_x n_y : nat)
    (test_size : size) (random_state : seed_arg) (e : exn) :
  fst (train_test_indices R global n_x n_y test_size random_state) = Err e ->
  exn_class e = "ValueError"%string.
Proof.
  unfold train_test_indices.
  destruct (validate_params test_size random_state) as [u|e0] eqn:Evp;
    cbn [fst]; [|intros [= <-]; eapply validate_params_class; eauto].
  destruct (negb (n_x =? n_y)%nat); cbn [fst]; [now intros [= <-]|].
  destruct (validate_shuffle_split n_x test_size) as [[a b]|e0] eqn:Ev;
    cbn [fst]; [|intros [= <-]; eapply validate_shuffle_split_class; eauto].
  destruct (check_random_state R global random_state) as [[g ig]|e0] eqn:Ec;
    cbn [fst].
  - destruct (permutation R g n_x). discriminate.
  - intros [= <-]. now rewrite (check_random_state_class _ _ _ Ec).
Qed.

(** When the split raises for the size, the size is a float outside (0,1)
    or an integer outside the range from 1 to the number of rows less one. *)
Lemma train_test_indices_size (R : RandomState) (global : rng R) (n_x n_y : nat)
    (test_size : size) (random_state : seed_arg) :
  fst (train_test_indices R global n_x n_y test_size random_state)
  = Err ValueError_test_size ->
  match test_size with
  | Fraction q => Qle_bool q 0 || Qle_bool 1 q = true
  | Count k => (Z.of_nat n_x <=? k) || (k <=? 0) = true
  | Unset => False
  end.
Proof.
  unfold train_test_indices.
  destruct (validate_params test_size random_state) as [u|e0] eqn:Evp; cbn [fst].
  - destruct (negb (n_x =? n_y)%nat); cbn [fst]; [discriminate|].
    destruct (validate_shuffle_split n_x test_size) as [[a b]|e0] eqn:Ev; cbn [fst].
    + destruct (check_random_state R global random_state) as [[g ig]|e0] eqn:Ec;
        cbn [fst].
      * destruct (permutation R g n_x). discriminate.
      * apply check_random_state_class in Ec. subst e0. discriminate.
    + intros [= ->]. revert Ev. unfold validate_shuffle_split.
      destruct test_size as [q|k|]; cbn [bind].
      * destruct (Qle_bool q 0 || Qle_bool 1 q); [reflexivity|]. cbn [bind].
        destruct (_ =? 0)%nat; discriminate.
      * destruct ((Z.of_nat n_x <=? k) || (k <=? 0)); [reflexivity|]. cbn [bind].
        destruct (_ =? 0)%nat; discriminate.
      * simpl. destruct (_ =? 0)%nat; discriminate.
  - intros [= ->]. revert Evp. unfold validate_params.
    destruct test_size as [q|k|]; cbn [bind].
    + destruct (Qle_bool q 0 || Qle_bool 1 q); [reflexivity|]. cbn [bind].
      destruct random_state as [s|]; [|discriminate].
      destruct ((0 <=? s) && (s <? 2 ^ 32)); discriminate.
    + destruct (k <=? 0); [now rewrite orb_true_r|]. cbn [bind].
      destruct random_state as [s|]; [|discriminate].
      destruct ((0 <=? s) && (s <? 2 ^ 32)); discriminate.
    + destruct random_state as [s|]; [|discriminate].
      destruct ((0 <=? s) && (s <? 2 ^ 32)); discriminate.
Qed.

(** The split raises for the size only from its two checks of the size. *)
Lemma split_train_test_size_error (A B : Type) (R : RandomState) (global : rng R)
    (X : list A) (y : list B) (test_size : size) (random_state : seed_arg) :
  fst (split_train_test R global X y test_size random_state)
  = Err ValueError_test_size ->
  fst (train_test_indices R global (length X) (length y) test_size random_state)
  = Err ValueError_test_size.
Proof.
  unfold split_train_test, train_test_split.
  destruct (train_test_indices R global (length X) (length y) test_size random_state)
    as [[[train test]|e] g']; simpl; [|now intros [= ->]].
  destruct (safe_indexing X train) as [?|e1] eqn:E1; simpl;
    [|apply safe_indexing_err in E1; subst; discriminate].
  destruct (safe_indexing X test) as [?|e2] eqn:E2; simpl;
    [|apply safe_indexing_err in E2; subst; discriminate].
  destruct (safe_indexing y train) as [?|e3] eqn:E3; simpl;
    [|apply safe_indexing_err in E3; subst; discriminate].
  destruct (safe_indexing y test) as [?|e4] eqn:E4; simpl;
    [|apply safe_indexing_err in E4; subst; discriminate].
  discriminate.
Qed.

Lemma split_train_test_indices_error (A B : Type) (R : RandomState) (global : rng R)
    (X : list A) (y : list B) (test_size : size) (random_state : seed_arg) (e : exn) :
  fst (train_test_indices R global (length X) (length y) test_size random_state)
  = Err e ->
  fst (split_train_test R global X y test_size random_state) = Err e.
Proof.
  unfold split_train_test, train_test_split.
  destruct (train_test_indices R global (length X) (length y) test_size random_state)
    as [[[train test]|e'] g']; simpl; [discriminate|]. now intros [= ->].
Qed.

(** C7, as the specification has it, fails for a test size given as an
    integer: 3 lies outside (0,1), and the split returns, with three rows in
    the test part. *)
Lemma split_train_test_count_returns :
  ~ ((0 < inject_Z 3)%Q /\ (inject_Z 3 < 1)%Q) /\
  fst (split_train_test rotating 0%nat [10; 20; 30; 40] [1; 0; 0; 1]
         (Count 3) default_random_state)
  = Ok ([20], [30; 40; 10], [0], [0; 1; 1]).
Proof.
  split; [intros [_ H]; discriminate H | reflexivity].
Qed.

(** C7, amended. A float [test_size] at or below 0, or at or above 1, makes
    [split_train_test] raise [ValueError], for the size itself when [X] and
    [y] are equally long, and a float strictly between 0 and 1 never makes it
    raise for the size.  An integer [test_size] is a number of test rows: at
    or below 0, or at or above the number of rows, it makes the split raise
    [ValueError], and from 1 to the number of rows less one it never makes
    it raise for the size. *)
Theorem split_train_test_test_size (A B : Type) (R : RandomState)
    (global : rng R) (X : list A) (y : list B) (q : Q) (k : Z)
    (random_state : seed_arg) :
  ((q <= 0)%Q \/ (1 <= q)%Q ->
   exists e,
     fst (split_train_test R global X y (Fraction q) random_state) = Err e /\
     exn_class e = "ValueError"%string /\
     (length X = length y -> e = ValueError_test_size)) /\
  ((0 < q)%Q /\ (q < 1)%Q ->
   fst (split_train_test R global X y (Fraction q) random_state)
   <> Err ValueError_test_size) /\
  (k <= 0 \/ Z.of_nat (length X) <= k ->
   exists e,
     fst (split_train_test R global X y (Count k) random_state) = Err e /\
     exn_class e = "ValueError"%string /\
     (k <= 0 -> e = ValueError_test_size)) /\
  (0 < k < Z.of_nat (length X) ->
   fst (split_train_test R global X y (Count k) random_state)
   <> Err ValueError_test_size).
Proof.
  split; [|split; [|split]].
  - intros Hout.
    assert (Hb : Qle_bool q 0 || Qle_bool 1 q = true).
    { apply orb_true_iff. destruct Hout as [H|H]; [left|right];
        now apply Qle_bool_iff. }
    exists ValueError_test_size. split; [|split; [reflexivity | reflexivity]].
    apply split_train_test_indices_error.
    unfold train_test_indices, validate_params. now rewrite Hb.
  - intros [H0 H1] Herr. apply split_train_test_size_error in Herr.
    apply train_test_indices_size in Herr. apply orb_true_iff in Herr.
    destruct Herr as [E | E]; apply Qle_bool_iff in E;
      now apply Qle_not_lt in E.
  - intros Hout.
    destruct (k <=? 0) eqn:Ek.
    + exists ValueError_test_size. split; [|split; reflexivity].
      apply split_train_test_indices_error.
      unfold train_test_indices, validate_params. now rewrite Ek.
    + destruct (fst (train_test_indices R global (length X) (length y)
                       (Count k) random_state)) as [[train test]|e] eqn:Eix.
      * exfalso. apply Z.leb_gt in Ek.
        assert (Hk : (length X <= Z.to_nat k)%nat) by lia.
        revert Eix. unfold train_test_indices.
        destruct (validate_params (Count k) random_state); [|discriminate].
        destruct (negb (length X =? length y)%nat); [discriminate|].
        destruct (validate_shuffle_split (length X) (Count k))
          as [[n_train n_test]|e] eqn:Ev; [|discriminate].
        exfalso. revert Ev. unfold validate_shuffle_split. cbn [bind].
        destruct ((Z.of_nat (length X) <=? k) || (k <=? 0)) eqn:Eb;
          [discriminate|].
        apply orb_false_iff in Eb. destruct Eb as [Eb _].
        apply Z.leb_gt in Eb. lia.
      * exists e. split; [now apply split_train_test_indices_error|].
        split; [eapply train_test_indices_class; eauto|].
        intros Hle. apply Z.leb_gt in Ek. lia.
  - intros [H0 H1] Herr. apply split_train_test_size_error in Herr.
    apply train_test_indices_size in Herr. apply orb_true_iff in Herr.
    destruct Herr as [E | E]; apply Z.leb_le in E; lia.
Qed.

Lemma split_train_test_test_size_witness :
  ((3 # 2 <= 0)%Q \/ (1 <= 3 # 2)%Q) /\
  (exists e,
     fst (split_train_test rotating 0%nat [10; 20; 30; 40] [1; 0; 0; 1]
            (Fraction (3 # 2)) default_random_state) = Err e /\
     exn_class e = "ValueError"%string /\
     (length [10; 20; 30; 40] = length [1; 0; 0; 1] -> e = ValueError_test_size)) /\
  ((0 < 1 # 4)%Q /\ (1 # 4 < 1)%Q) /\
  fst (split_train_test rotating 0%nat [10; 20; 30; 40] [1; 0; 0; 1]
         (Fraction (1 # 4)) default_random_state)
  <> Err ValueError_test_size /\
  (4 <= 0 \/ Z.of_nat (length [10; 20; 30; 40]) <= 4) /\
  (exists e,
     fst (split_train_test rotating 0%nat [10; 20; 30; 40] [1; 0; 0; 1]
            (Count 4) default_random_state) = Err e /\
     exn_class e = "ValueError"%string /\
     (4 <= 0 -> e = ValueError_test_size)) /\
  0 < 3 < Z.of_nat (length [10; 20; 30; 40]) /\
  fst (split_train_test rotating 0%nat [10; 20; 30; 40] [1; 0; 0; 1]
         (Count 3) default_random_state)
  <> Err ValueError_test_size.
Proof.
  assert (Hout : (3 # 2 <= 0)%Q \/ (1 <= 3 # 2)%Q).
  { right. unfold Qle. simpl. lia. }
  assert (Hin : (0 < 1 # 4)%Q /\ (1 # 4 < 1)%Q).
  { split; unfold Qlt; simpl; lia. }
  assert (Hk4 : 4 <= 0 \/ Z.of_nat (length [10; 20; 30; 40]) <= 4).
  { right. simpl. lia. }
  assert (Hk3 : 0 < 3 < Z.of_nat (length [10; 20; 30; 40])).
  { simpl. lia. }
  split; [exact Hout|].
  split.
  { exact (proj1 (@split_train_test_test_size Z Z rotating 0%nat
                    [10; 20; 30; 40] [1; 0; 0; 1] (3 # 2) 4 default_random_state)
                 Hout). }
  split; [exact Hin|].
  split.
  { exact (proj1 (proj2 (@split_train_test_test_size Z Z rotating 0%nat
                    [10; 20; 30; 40] [1; 0; 0; 1] (1 # 4) 4 default_random_state))
                 Hin). }
  split; [exact Hk4|].
  split.
  { exact (proj1 (proj2 (proj2 (@split_train_test_test_size Z Z rotating 0%nat
                    [10; 20; 30; 40] [1; 0; 0; 1] (1 # 4) 4 default_random_state)))
                 Hk4). }
  split; [exact Hk3|].
  exact (proj2 (proj2 (proj2 (@split_train_test_test_size Z Z rotating 0%nat
                  [10; 20; 30; 40] [1; 0; 0; 1] (1 # 4) 3 default_random_state)))
               Hk3).
Defined.

(** ** train_model *)

(** C8, as the specification has it, fails: on an empty training set
    [train_model] raises the [ValueError] of the check of the labels, an
    array without samples; no [ConfigurationError] is raised. *)
Lemma train_model_empty_not_configuration_error :
  train_model majority round_robin [] [] HYPERPARAMETERS = Err ValueError_empty_array /\
  exn_class ValueError_empty_array = "ValueError"%string /\
  exn_class ValueError_empty_array <> "ConfigurationError"%string.
Proof. repeat split. discriminate. Qed.

(** C8, amended. On an empty training set [train_model] returns no fitted
    model: it raises [ValueError], whatever the grid, the estimator and the
    labels given. *)
Theorem train_model_empty (E : Estimator) (splitter : Splitter)
    (y_train : list label) (hyperparameters : list (pystr * list (param E))) :
  exists e,
    train_model E splitter [] y_train hyperparameters = Err e /\
    exn_class e = "ValueError"%string.
Proof.
  unfold train_model, GridSearchCV_fit.
  change (get_scorer (lit "f1")) with (Ok f1_score). simpl.
  destruct y_train as [|b y]; simpl.
  - destruct (ParameterGrid hyperparameters) as [candidates|e] eqn:Eg; simpl.
    + eauto.
    + exists e. split; [reflexivity|].
      unfold ParameterGrid in Eg.
      destruct (find _ hyperparameters); [|discriminate].
      now injection Eg as <-.
  - eauto.
Qed.

Section GridSearch.

Lemma product_spec (T : Type) (ls : list (list T)) (vs : list T) :
  In vs (product ls) <-> Forall2 (fun v l => In v l) vs ls.
Proof.
  revert vs. induction ls as [|l ls IH]; intros vs; simpl.
  - split.
    + intros [<- | []]. constructor.
    + intros H. inversion H. now left.
  - rewrite in_flat_map. split.
    + intros [a [Ha Hin]]. apply in_map_iff in Hin.
      destruct Hin as [vs' [<- Hvs']]. constructor; [exact Ha|]. now apply IH.
    + intros H. inversion H as [|v l' vs' ls' Hv Hvs]; subst.
      exists v. split; [exact Hv|]. apply in_map. now apply IH.
Qed.

Lemma product_length (T : Type) (ls : list (list T)) :
  length (product ls) = fold_right (fun l n => (length l * n)%nat) 1%nat ls.
Proof.
  induction ls as [|l ls IH]; simpl; [reflexivity|].
  rewrite <- IH. clear IH.
  induction l as [|a l IHl]; simpl; [reflexivity|].
  now rewrite length_app, length_map, IHl.
Qed.

Lemma insert_item_permutation (V : Type) (kv : pystr * V) (l : list (pystr * V)) :
  Permutation (insert_item kv l) (kv :: l).
Proof.
  induction l as [|kv' l IH]; simpl; [reflexivity|].
  destruct (pystr_leb (fst kv) (fst kv')); [reflexivity|].
  rewrite IH. apply perm_swap.
Qed.

Lemma sorted_items_permutation (V : Type) (d : list (pystr * V)) :
  Permutation (sorted_items d) d.
Proof.
  unfold sorted_items. induction d as [|kv d IH]; simpl; [reflexivity|].
  rewrite insert_item_permutation. now constructor.
Qed.

Lemma combine_picks (V : Type) (items : list (pystr * list V)) (vs : list V) :
  Forall2 (fun v l => In v l) vs (map snd items) ->
  Forall2 (@picks V) (combine (map fst items) vs) items.
Proof.
  revert vs. induction items as [|item items IH]; intros vs H; simpl in H.
  - inversion H; subst. constructor.
  - inversion H as [|v l vs' ls' Hv Hvs]; subst. simpl. constructor.
    + split; [reflexivity | exact Hv].
    + now apply IH.
Qed.

Lemma picks_combine (V : Type) (items : list (pystr * list V)) (c : list (pystr * V)) :
  Forall2 (@picks V) c items ->
  c = combine (map fst items) (map snd c) /\
  Forall2 (fun v l => In v l) (map snd c) (map snd items).
Proof.
  induction 1 as [|[k v] item c items [Hk Hv] _ [IHc IHv]]; simpl.
  - split; constructor.
  - simpl in Hk. subst k. split; [now rewrite <- IHc | now constructor].
Qed.

(** The candidates of a grid are the settings that pick one value for each
    parameter, the parameters taken in the order of their names. *)
Lemma ParameterGrid_spec (V : Type) (param_grid : list (pystr * list V))
    (candidates : list (list (pystr * V))) :
  ParameterGrid param_grid = Ok candidates ->
  (forall c, In c candidates <-> Forall2 (@picks V) c (sorted_items param_grid)) /\
  length candidates
  = fold_right (fun item n => (length (snd item) * n)%nat) 1%nat
               (sorted_items param_grid) /\
  candidates <> [].
Proof.
  unfold ParameterGrid.
  destruct (find _ param_grid) as [kv|] eqn:Efind; [discriminate|].
  intros [= <-]. split; [|split].
  - intros c. rewrite in_map_iff. split.
    + intros [vs [<- Hvs]]. apply combine_picks. now apply product_spec.
    + intros H. apply picks_combine in H. destruct H as [Hc Hv].
      exists (map snd c). split; [now symmetry|]. now apply product_spec.
  - rewrite length_map, product_length.
    induction (sorted_items param_grid) as [|item items IH]; simpl; congruence.
  - assert (Hne : Forall (fun item : pystr * list V => snd item <> [])
                         (sorted_items param_grid)).
    { rewrite sorted_items_permutation. apply Forall_forall.
      intros item Hin Hnil.
      apply (find_none _ _ Efind) in Hin. now rewrite Hnil in Hin. }
    induction Hne as [|item items Hitem _ IH]; simpl; [discriminate|].
    destruct (snd item) as [|v vs]; [contradiction|]. simpl.
    destruct (product (map snd items)) as [|p ps]; simpl in *;
      [contradiction | discriminate].
Qed.

Lemma argmax_from_spec (l pre : list Q) (best_i : nat) (best : Q) :
  nth_error pre best_i = Some best ->
  Forall (fun x => (x <= best)%Q) pre ->
  exists q,
    nth_error (pre ++ l) (argmax_from (length pre) best_i best l) = Some q /\
    Forall (fun x => (x <= q)%Q) (pre ++ l).
Proof.
  revert pre best_i best. induction l as [|x l IH]; intros pre best_i best Hb Hle.
  - simpl. rewrite app_nil_r. eauto.
  - simpl. replace (pre ++ x :: l) with ((pre ++ [x]) ++ l)
      by now rewrite <- app_assoc.
    replace (S (length pre)) with (length (pre ++ [x]))
      by (rewrite length_app; simpl; lia).
    destruct (Qle_bool x best) eqn:E.
    + apply Qle_bool_iff in E. apply IH.
      * rewrite nth_error_app1; [exact Hb|].
        apply nth_error_Some. congruence.
      * apply Forall_app. split; [exact Hle | now constructor].
    + assert (Hlt : (best < x)%Q).
      { apply Qnot_le_lt. intros H. apply Qle_bool_iff in H. congruence. }
      apply IH.
      * rewrite nth_error_app2, Nat.sub_diag by lia. reflexivity.
      * apply Forall_app. split.
        -- eapply Forall_impl; [|exact Hle]. simpl. intros a Ha.
           apply Qlt_le_weak. eapply Qle_lt_trans; eauto.
        -- constructor; [apply Qle_refl | constructor].
Qed.

(** [argmax] points at a greatest element. *)
Lemma argmax_spec (l : list Q) :
  l <> [] ->
  exists q, nth_error l (argmax l) = Some q /\ Forall (fun x => (x <= q)%Q) l.
Proof.
  destruct l as [|x l]; [contradiction|]. intros _.
  apply (@argmax_from_spec l [x] 0%nat x); [reflexivity|].
  constructor; [apply Qle_refl | constructor].
Qed.

Lemma argmax_from_lt (l : list Q) (i best_i : nat) (best : Q) :
  (best_i < i)%nat -> (argmax_from i best_i best l < i + length l)%nat.
Proof.
  revert i best_i best. induction l as [|x l IH]; intros i best_i best Hlt; simpl.
  - lia.
  - destruct (Qle_bool x best).
    + specialize (IH (S i) best_i best). lia.
    + specialize (IH (S i) i x). lia.
Qed.

Lemma kfold_split_folds (splitter : Splitter) (n_splits : nat) (y : list label)
    (splits : list (list nat * list nat)) :
  kfold_split splitter n_splits y = Ok splits ->
  y <> [] /\ (n_splits <= length y)%nat /\
  exists test_folds,
    splitter n_splits y = Ok test_folds /\
    splits = map (fun i => (positions_in_fold (fun f => negb (f =? i)%nat) test_folds,
                            positions_in_fold (fun f => (f =? i)%nat) test_folds))
                 (seq 0 n_splits).
Proof.
  unfold kfold_split.
  destruct (length y =? 0)%nat eqn:E0; [discriminate|].
  destruct (length y <? n_splits)%nat eqn:En; [discriminate|].
  destruct (splitter n_splits y) as [folds|e]; simpl; [|discriminate].
  intros [= <-]. apply Nat.eqb_neq in E0. apply Nat.ltb_ge in En.
  split; [now destruct y|]. split; [exact En|]. eauto.
Qed.

Lemma kfold_split_length (splitter : Splitter) (n_splits : nat) (y : list label)
    (splits : list (list nat * list nat)) :
  kfold_split splitter n_splits y = Ok splits -> length splits = n_splits.
Proof.
  intros H. apply kfold_split_folds in H.
  destruct H as [_ [_ [test_folds [_ ->]]]]. now rewrite length_map, length_seq.
Qed.







Lemma nanmin_none (l : list score) (q : Q) : nanmin l = None -> ~ In (Some q) l.
Proof.
  induction l as [|a l IH]; simpl; [tauto|].
  destruct a as [x|].
  - destruct (nanmin l); discriminate.
  - intros H [Heq | Hin]; [discriminate | now apply IH].
Qed.

Lemma nanmin_le (l : list score) (m q : Q) :
  nanmin l = Some m -> In (Some q) l -> (m <= q)%Q.
Proof.
  revert m. induction l as [|a l IH]; intros m; simpl; [discriminate|].
  destruct a as [x|].
  - destruct (nanmin l) as [m'|] eqn:Em.
    + intros [= <-] [[= ->] | Hin].
      * destruct (Qle_bool q m') eqn:E; [apply Qle_refl|].
        apply Qlt_le_weak, Qnot_le_lt. intros H. apply Qle_bool_iff in H. congruence.
      * specialize (IH m' eq_refl Hin).
        destruct (Qle_bool x m') eqn:E; [|exact IH].
        apply Qle_bool_iff in E. eapply Qle_trans; eauto.
    + intros [= <-] [[= ->] | Hin]; [apply Qle_refl|].
      exfalso. eapply nanmin_none; eauto.
  - intros Hm [Heq | Hin]; [discriminate | now apply IH].
Qed.

(** [rank_first] points at a mean, and no mean that is not [nan] is greater
    than it. *)
Lemma rank_first_spec (means : list score) :
  means <> [] ->
  exists a,
    nth_error means (rank_first means) = Some a /\
    forall q, In (Some q) means -> exists qb, a = Some qb /\ (q <= qb)%Q.
Proof.
  intros Hne. unfold rank_first.
  destruct (nanmin means) as [m|] eqn:Em.
  - set (f := fun a : score => match a with Some q => q | None => (m - 1)%Q end).
    destruct (@argmax_spec (map f means)) as [q0 [Hq0 Hmax]].
    { destruct means; [contradiction | discriminate]. }
    rewrite nth_error_map in Hq0.
    destruct (nth_error means (argmax (map f means))) as [a|]; [|discriminate].
    injection Hq0 as <-. exists a. split; [reflexivity|].
    intros q Hq. rewrite Forall_map, Forall_forall in Hmax.
    pose proof (Hmax _ Hq) as Hle. simpl in Hle.
    destruct a as [qb|]; [eauto|]. exfalso. simpl in Hle.
    pose proof (@nanmin_le means m q Em Hq) as Hm.
    assert (Hlt : (m - 1 < m)%Q).
    { rewrite <- (Qplus_0_r m) at 2. unfold Qminus.
      apply Qplus_lt_r. reflexivity. }
    apply (Qlt_irrefl m). eapply Qle_lt_trans; [|exact Hlt].
    eapply Qle_trans; eauto.
  - destruct means as [|a means]; [contradiction|]. exists a.
    split; [reflexivity|]. intros q Hq. exfalso. eapply nanmin_none; eauto.
Qed.

End GridSearch.






(** What a successful [train_model] has gone through. *)
Lemma train_model_inv (E : Estimator) (splitter : Splitter)
    (X_train : list (sample E)) (y_train : list label)
    (hyperparameters : list (pystr * list (param E))) (clf : GridSearchCV E) :
  train_model E splitter X_train y_train hyperparameters = Ok clf ->
  exists candidates splits,
    length X_train = length y_train /\
    ParameterGrid hyperparameters = Ok candidates /\
    kfold_split splitter 4 y_train = Ok splits /\
    forallb (set_params E) candidates = true /\
    cv_results_ clf
    = map (evaluate_candidate E f1_score true X_train y_train splits) candidates /\
    existsb (fun r => existsb (fun a : score => match a with
                                                | None => false
                                                | Some _ => true
                                                end) (split_test_score r))
            (cv_results_ clf) = true /\
    n_splits_ clf = 4%nat /\
    best_index_ clf = rank_first (map (@mean_test_score E) (cv_results_ clf)) /\
    best_params_ clf = nth (best_index_ clf) candidates [] /\
    fit_raises E (best_params_ clf) X_train y_train = false /\
    best_estimator_ clf = Some (fit E (best_params_ clf) X_train y_train).
Proof.
  unfold train_model, GridSearchCV_fit.
  change (get_scorer (lit "f1")) with (Ok f1_score). cbn [bind].
  destruct (length X_train =? length y_train)%nat eqn:Elen; [|discriminate].
  apply Nat.eqb_eq in Elen. cbn [negb].
  change (4 <? 2)%nat with false. cbv iota.
  destruct (ParameterGrid hyperparameters) as [candidates|e] eqn:Egrid;
    cbn [bind]; [|discriminate].
  destruct (kfold_split splitter 4 y_train) as [splits|e] eqn:Esplit;
    cbn [bind]; [|discriminate].
  destruct (forallb (set_params E) candidates) eqn:Enames; [|discriminate].
  cbn [negb]. cbv iota.
  set (results := map (evaluate_candidate E f1_score true X_train y_train splits)
                      candidates).
  destruct (forallb _ results) eqn:Eall; [discriminate|].
  destruct (fit_raises E _ X_train y_train) eqn:Efit; [discriminate|].
  intros [= <-]. cbn [cv_results_ n_splits_ best_index_ best_params_ best_estimator_].
  exists candidates, splits.
  repeat (split; [reflexivity || assumption|]).
  split.
  { clear -Eall. induction results as [|r rs IH]; simpl in *; [discriminate|].
    apply andb_false_iff in Eall. apply orb_true_iff.
    destruct Eall as [Hr | Hrs]; [left | right; now apply IH].
    clear -Hr. induction (split_test_score r) as [|a l IHl]; simpl in *;
      [discriminate|].
    destruct a; simpl in *; [reflexivity | now apply IHl]. }
  repeat (split; [reflexivity || assumption|]).
  reflexivity.
Qed.



(** The search on the example data: the settings with [classifier__alpha]
    equal to 1 reach an F1 of 2/3 on every held-out fold, the others 0, and
    the first of the best settings is kept. *)
Example train_model_example :
  exists clf,
    train_model majority round_robin reviews sentiments two_by_two = Ok clf /\
    map (@split_test_score majority) (cv_results_ clf)
    = [ [Some (2 # 3); Some (2 # 3); Some (2 # 3); Some (2 # 3)];
        [Some (2 # 3); Some (2 # 3); Some (2 # 3); Some (2 # 3)];
        [Some 0; Some 0; Some 0; Some 0]; [Some 0; Some 0; Some 0; Some 0] ]%Q /\
    best_index_ clf = 0%nat /\
    best_params_ clf
    = [(lit "classifier__alpha", Number 1);
       (lit "vectorization__max_features", Number 5000)] /\
    best_estimator_ clf = Some true.
Proof. vm_compute. eexists. repeat split. Qed.

(** A setting whose fits raise is scored [nan] on every fold and has [nan]
    for a mean; the search goes on and keeps the setting that could be
    fitted. *)
Example train_model_failing_first :
  exists clf,
    train_model majority round_robin reviews sentiments failing_first = Ok clf /\
    map (@split_test_score majority) (cv_results_ clf)
    = [ [None; None; None; None];
        [Some (2 # 3); Some (2 # 3); Some (2 # 3); Some (2 # 3)] ]%Q /\
    map (fun r => match mean_test_score r with None => true | Some _ => false end)
        (cv_results_ clf) = [true; false] /\
    best_index_ clf = 1%nat /\
    best_params_ clf = [(lit "vectorization__max_features", Number 100)].
Proof. vm_compute. eexists. repeat split. Qed.

(** When the fits of every setting raise, the search raises. *)
Example train_model_all_fits_fail :
  train_model majority round_robin reviews sentiments
    [ (lit "vectorization__max_features", [Number 0]) ]
  = Err ValueError_all_fits_failed.
Proof. reflexivity. Qed.

(** [train_model] returns a fitted search as soon as there are as many labels
    as samples, at least 4 of them, no parameter without candidate, folds
    from the splitter, only parameter names the pipeline accepts, and no fit
    that raises. *)
Lemma train_model_returns (E : Estimator) (splitter : Splitter)
    (X_train : list (sample E)) (y_train : list label)
    (hyperparameters : list (pystr * list (param E)))
    (candidates : list (list (pystr * param E))) (test_folds : list nat) :
  length X_train = length y_train ->
  (4 <= length y_train)%nat ->
  ParameterGrid hyperparameters = Ok candidates ->
  splitter 4%nat y_train = Ok test_folds ->
  forallb (set_params E) candidates = true ->
  (forall c X y, fit_raises E c X y = false) ->
  exists clf, train_model E splitter X_train y_train hyperparameters = Ok clf.
Proof.
  intros Hlen Hn Hgrid Hfolds Hnames Hfit.
  destruct (@ParameterGrid_spec (param E) hyperparameters candidates Hgrid) as [_ [_ Hne]].
  unfold train_model, GridSearchCV_fit, kfold_split.
  change (get_scorer (lit "f1")) with (Ok f1_score). cbn [bind].
  rewrite Hlen, Nat.eqb_refl, Hgrid. cbn [negb bind].
  change (4 <? 2)%nat with false. cbv iota.
  destruct (length y_train =? 0)%nat eqn:E0;
    [apply Nat.eqb_eq in E0; lia|].
  destruct (length y_train <? 4)%nat eqn:E4;
    [apply Nat.ltb_lt in E4; lia|].
  rewrite Hfolds. cbn [bind]. rewrite Hnames. cbn [negb]. cbv iota. cbv zeta.
  rewrite Hfit.
  match goal with
  | |- exists clf, (if ?b then _ else _) = _ =>
      assert (Hall : b = false); [|rewrite Hall; eauto]
  end.
  destruct candidates as [|c cs]; [contradiction|].
  cbn [map forallb]. apply andb_false_iff. left.
  unfold evaluate_candidate at 1. cbn [split_test_score seq map forallb fst].
  unfold fit_and_score at 1. now rewrite Hfit.
Qed.

(** * Further properties *)

(** ** load_data *)

Lemma lstrip_id (s : pystr) :
  (forall c, hd_error s = Some c -> isspace c = false) -> lstrip s = s.
Proof.
  destruct s as [|a s]; simpl; [reflexivity|].
  intros H. now rewrite (H a eq_refl).
Qed.

Lemma strip_id (s : pystr) : trimmed s -> strip s = s.
Proof.
  intros [Hh Hl]. unfold strip, rstrip.
  rewrite (lstrip_id s Hh), (lstrip_id (rev s) Hl). apply rev_involutive.
Qed.

Lemma replace_id (s : pystr) :
  ~ In space s -> PyStr.replace space underscore s = s.
Proof.
  intros H. unfold PyStr.replace. rewrite <- (map_id s) at 2.
  apply map_ext_in. intros c Hc. destruct (c =? space)%N eqn:E; [|reflexivity].
  apply N.eqb_eq in E. subst c. contradiction.
Qed.

Lemma normalize_column_fixed (col : pystr) :
  trimmed col -> ~ In space col -> normalize_column col = col.
Proof.
  intros Ht Hs. unfold normalize_column.
  rewrite (strip_id Ht). now apply replace_id.
Qed.

Lemma normalize_column_twice (col : pystr) :
  normalize_column (normalize_column col) = normalize_column col.
Proof.
  destruct (normalize_column_clean col) as [Ht Hs].
  now apply normalize_column_fixed.
Qed.

(** X1. Normalising a column name twice is normalising it once, and a name
    with no space and no white space at either end is left as it is: a
    header that is already normalised goes through [load_data] unchanged. *)
Theorem normalize_column_idempotent (col : pystr) :
  normalize_column (normalize_column col) = normalize_column col /\
  (trimmed col -> ~ In space col -> normalize_column col = col).
Proof.
  split; [apply normalize_column_twice | apply normalize_column_fixed].
Qed.

Lemma normalize_column_idempotent_witness :
  normalize_column (normalize_column (lit " Review text "))
  = normalize_column (lit " Review text ") /\
  trimmed Review_text /\ ~ In space Review_text /\
  normalize_column Review_text = Review_text.
Proof.
  assert (Ht : trimmed Review_text).
  { split; intros c; vm_compute; intros [= <-]; reflexivity. }
  assert (Hs : ~ In space Review_text).
  { vm_compute. intuition discriminate. }
  split; [exact (proj1 (normalize_column_idempotent (lit " Review text ")))|].
  split; [exact Ht|]. split; [exact Hs|].
  exact (proj2 (normalize_column_idempotent Review_text) Ht Hs).
Defined.

(** X2. For a frame that carries the default index, the frame [load_data]
    returns holds, in the order of the frame read, the rows read with the
    label written over the rating, less the rows that then have a missing or
    an empty cell; whatever the index, it never has more rows than the frame
    read. *)
Theorem load_data_keeps_order (read df : DataFrame) :
  load_data read = Ok df ->
  exists j,
    positions Ratings (columns df) = [j] /\
    (default_index read -> rows df = filter complete (map (relabel j) (rows read))) /\
    (length (rows df) <= length (rows read))%nat.
Proof.
  intros Hload.
  destruct (load_data_inv _ Hload) as [j [Hpos [_ [_ [Hcols Hrows]]]]].
  exists j. split; [now rewrite Hcols|]. split.
  - intros Hidx. now rewrite Hrows, (labelled_default j Hidx).
  - rewrite Hrows. etransitivity; [apply filter_length_le|].
    unfold labelled. rewrite length_map, length_combine. apply Nat.le_min_l.
Qed.

Lemma load_data_keeps_order_witness :
  load_data scenario = Ok scenario_loaded /\
  default_index scenario /\
  exists j,
    positions Ratings (columns scenario_loaded) = [j] /\
    rows scenario_loaded = filter complete (map (relabel j) (rows scenario)) /\
    (length (rows scenario_loaded) <= length (rows scenario))%nat.
Proof.
  split; [reflexivity|].
  split; [exact scenario_default_index|].
  destruct (@load_data_keeps_order scenario scenario_loaded eq_refl)
    as [j [Hj [Hrows Hlen]]].
  exists j. split; [exact Hj|].
  split; [exact (Hrows scenario_default_index) | exact Hlen].
Defined.

(** X3. When no column of the frame read is named 'Ratings' once its name is
    normalised, [load_data] raises [KeyError] for 'Ratings'. *)
Theorem load_data_no_ratings (read : DataFrame) :
  ~ In Ratings (map normalize_column (columns read)) ->
  load_data read = Err (KeyError Ratings).
Proof.
  intros H. apply positions_nil in H.
  unfold load_data, getitem. simpl. now rewrite H.
Qed.

Lemma load_data_no_ratings_witness :
  ~ In Ratings (map normalize_column [lit "Review text"; lit "Stars"]) /\
  load_data {| index := [Int 0];
               columns := [lit "Review text"; lit "Stars"];
               rows := [ [Str (lit "fine"); Int 5] ] |}
  = Err (KeyError Ratings).
Proof.
  assert (H : ~ In Ratings (map normalize_column [lit "Review text"; lit "Stars"])).
  { simpl. intros [H | [H | []]]; discriminate H. }
  split; [exact H|].
  exact (@load_data_no_ratings
           {| index := [Int 0];
              columns := [lit "Review text"; lit "Stars"];
              rows := [ [Str (lit "fine"); Int 5] ] |} H).
Defined.

(** X4. When one column is named 'Ratings' and one of its cells is a string,
    [load_data] raises [TypeError]: no row is labelled. *)
Theorem load_data_text_rating (read : DataFrame) (j : nat) (r : list cell) (s : pystr) :
  positions Ratings (map normalize_column (columns read)) = [j] ->
  In r (rows read) ->
  nth j r NaN = Str s ->
  load_data read = Err TypeError_compare /\
  exn_class TypeError_compare = "TypeError"%string.
Proof.
  intros Hpos Hr Hs. split; [|reflexivity].
  apply (@load_data_string_rating read j r Hpos Hr). now rewrite Hs.
Qed.

Lemma load_data_text_rating_witness :
  load_data {| index := [Int 0; Int 1];
               columns := [lit "Review text"; lit "Ratings"];
               rows := [ [Str (lit "fine"); Int 5];
                         [Str (lit "poor"); Str (lit "two")] ] |}
  = Err TypeError_compare /\
  exn_class TypeError_compare = "TypeError"%string.
Proof.
  apply (@load_data_text_rating
           {| index := [Int 0; Int 1];
              columns := [lit "Review text"; lit "Ratings"];
              rows := [ [Str (lit "fine"); Int 5];
                        [Str (lit "poor"); Str (lit "two")] ] |}
           1%nat [Str (lit "poor"); Str (lit "two")] (lit "two")).
  - reflexivity.
  - simpl. auto.
  - reflexivity.
Defined.

(** X5. When two or more columns are named 'Ratings' once normalised,
    [load_data] returns no frame: it raises [TypeError] or [ValueError]. *)
Theorem load_data_duplicate_ratings (read : DataFrame) :
  (2 <= length (positions Ratings (map normalize_column (columns read))))%nat ->
  exists e,
    load_data read = Err e /\
    (e = TypeError_compare \/ e = ValueError_not_1d).
Proof.
  intros H. unfold load_data, getitem. simpl.
  destruct (positions Ratings (map normalize_column (columns read)))
    as [|j [|j' js]]; simpl in H; try lia.
  simpl.
  assert (Hge : forall d k e, frame_ge d k = Err e -> e = TypeError_compare).
  { intros d k e. unfold frame_ge, series_ge.
    induction (rows d) as [|r rs IH]; simpl; [discriminate|].
    destruct (mapM (fun c => cell_ge c k) r) as [bs|e'] eqn:Er; simpl.
    - destruct (mapM _ rs); simpl; [discriminate|].
      intros [= <-]. now apply IH.
    - intros [= <-]. clear IH. induction r as [|c r IHr]; simpl in Er; [discriminate|].
      destruct c; simpl in Er;
        try (destruct (mapM _ r); simpl in Er; [discriminate|];
             injection Er as <-; now apply IHr).
      now injection Er as <-. }
  assert (Hle : forall d k e, frame_le d k = Err e -> e = TypeError_compare).
  { intros d k e. unfold frame_le, series_le.
    induction (rows d) as [|r rs IH]; simpl; [discriminate|].
    destruct (mapM (fun c => cell_le c k) r) as [bs|e'] eqn:Er; simpl.
    - destruct (mapM _ rs); simpl; [discriminate|].
      intros [= <-]. now apply IH.
    - intros [= <-]. clear IH. induction r as [|c r IHr]; simpl in Er; [discriminate|].
      destruct c; simpl in Er;
        try (destruct (mapM _ r); simpl in Er; [discriminate|];
             injection Er as <-; now apply IHr).
      now injection Er as <-. }
  destruct (frame_ge _ 4) as [?|e1] eqn:E1; simpl.
  - destruct (frame_le _ 3) as [?|e2] eqn:E2; simpl.
    + eauto.
    + exists e2. split; [reflexivity|]. left. eapply Hle; eauto.
  - exists e1. split; [reflexivity|]. left. eapply Hge; eauto.
Qed.

Lemma load_data_duplicate_ratings_witness :
  (2 <= length (positions Ratings
                  (map normalize_column [lit "Ratings"; lit " Ratings"])))%nat /\
  exists e,
    load_data {| index := [Int 0];
                 columns := [lit "Ratings"; lit " Ratings"];
                 rows := [ [Int 5; Int 1] ] |} = Err e /\
    (e = TypeError_compare \/ e = ValueError_not_1d).
Proof.
  assert (H : (2 <= length (positions Ratings
                  (map normalize_column [lit "Ratings"; lit " Ratings"])))%nat).
  { vm_compute. lia. }
  split; [exact H|].
  exact (@load_data_duplicate_ratings
           {| index := [Int 0];
              columns := [lit "Ratings"; lit " Ratings"];
              rows := [ [Int 5; Int 1] ] |} H).
Defined.

Lemma complete_set_nth (j : nat) (v : cell) (r : list cell) :
  notna v && negb (is_empty_str v) = true ->
  complete r = true -> complete (set_nth j v r) = true.
Proof.
  intros Hv. unfold complete. revert j.
  induction r as [|c r IH]; intros [|j]; simpl; auto.
  - intros H. apply andb_prop in H. now rewrite Hv, (proj2 H).
  - intros H. apply andb_prop in H. destruct H as [Hc Hr].
    now rewrite Hc, (IH j Hr).
Qed.

Lemma filter_all (T : Type) (f : T -> bool) (l : list T) :
  (forall x, In x l -> f x = true) -> filter f l = l.
Proof.
  induction l as [|a l IH]; simpl; intros H; [reflexivity|].
  rewrite (H a (or_introl eq_refl)). f_equal. apply IH. auto.
Qed.

Lemma map_fst_combine (S T : Type) (a : list S) (b : list T) :
  length a = length b -> map fst (combine a b) = a.
Proof.
  revert b. induction a as [|x a IH]; intros [|y b] H; simpl in *;
    try discriminate; [reflexivity|].
  f_equal. apply IH. now injection H.
Qed.

(** The rows of a frame [load_data] returns are complete and hold a label 0
    or 1 under 'Ratings'. *)
Lemma load_data_rows (read df : DataFrame) :
  well_formed read ->
  load_data read = Ok df ->
  exists j,
    positions Ratings (columns df) = [j] /\
    forall r', In r' (rows df) ->
               complete r' = true /\ binary_label (nth j r' NaN).
Proof.
  intros Hwf Hload.
  destruct (load_data_inv _ Hload) as [j [Hpos [_ [_ [Hcols Hrows]]]]].
  pose proof (load_data_columns Hwf Hpos) as Hlen.
  rewrite Forall_forall in Hlen.
  exists j. split; [now rewrite Hcols|].
  intros r' Hr'. rewrite Hrows in Hr'. apply filter_In in Hr'.
  destruct Hr' as [Hin Hc]. split; [exact Hc|].
  apply labelled_rows in Hin. destruct Hin as [r [a [Hr [-> Ha]]]].
  specialize (Hlen r Hr). rewrite set_nth_same by exact Hlen.
  destruct Ha as [-> | Ha]; [|exact Ha].
  unfold complete in Hc. rewrite forallb_forall in Hc.
  assert (Hin : In NaN (set_nth j NaN r)).
  { rewrite <- (@set_nth_same cell j NaN NaN r Hlen) at 1.
    apply nth_In. now rewrite set_nth_length. }
  specialize (Hc _ Hin). discriminate Hc.
Qed.

(** X6. [load_data] is meant for ratings, not for labels: run on a frame it
    has returned, taken with a fresh positional index, it succeeds and
    writes the label 0 in every row, since the labels 0 and 1 are both below
    4; no row is dropped. *)
Theorem load_data_twice (read df : DataFrame) :
  well_formed read ->
  load_data read = Ok df ->
  exists j,
    positions Ratings (columns df) = [j] /\
    load_data (reset_index df)
    = Ok {| index := RangeIndex (length (rows df));
            columns := columns df;
            rows := map (set_nth j (Int 0)) (rows df) |}.
Proof.
  intros Hwf Hload.
  destruct (load_data_rows Hwf Hload) as [j [Hj Hrow]].
  destruct (load_data_inv _ Hload) as [j' [Hpos [_ [_ [Hcols _]]]]].
  assert (Hidem : map normalize_column (columns df) = columns df).
  { rewrite Hcols, map_map. apply map_ext. apply normalize_column_twice. }
  assert (Hpos' : positions Ratings
                    (map normalize_column (columns (reset_index df))) = [j]).
  { simpl. now rewrite Hidem. }
  assert (Hrel : forall r', In r' (rows df) -> relabel j r' = set_nth j (Int 0) r').
  { intros r' Hr'. destruct (Hrow r' Hr') as [_ Hbin].
    unfold relabel, label_of.
    now destruct Hbin as [-> | [-> | [-> | ->]]]. }
  assert (Hmap : map (relabel j) (rows df) = map (set_nth j (Int 0)) (rows df)).
  { apply map_ext_in. exact Hrel. }
  assert (Hcomplete : forall r0, In r0 (map (set_nth j (Int 0)) (rows df)) ->
                                 complete r0 = true).
  { intros r0 Hr0. apply in_map_iff in Hr0. destruct Hr0 as [r' [<- Hr']].
    apply complete_set_nth; [reflexivity|]. now apply Hrow. }
  exists j. split; [exact Hj|].
  rewrite (@load_data_ok (reset_index df) j Hpos').
  - rewrite (@labelled_default j (reset_index df) eq_refl).
    cbn [reset_index index columns rows]. rewrite Hidem, Hmap.
    rewrite (filter_all complete _ Hcomplete).
    rewrite filter_all.
    + rewrite map_fst_combine; [reflexivity|].
      unfold RangeIndex. now rewrite !length_map, length_seq.
    + intros [l r0] Hin. apply in_combine_r in Hin. simpl. now apply Hcomplete.
  - apply Forall_forall. intros r' Hr'. simpl in Hr'.
    destruct (Hrow r' Hr') as [_ [-> | [-> | [-> | ->]]]]; reflexivity.
Qed.

Lemma load_data_twice_witness :
  well_formed scenario /\
  load_data scenario = Ok scenario_loaded /\
  exists j,
    positions Ratings (columns scenario_loaded) = [j] /\
    load_data (reset_index scenario_loaded)
    = Ok {| index := RangeIndex (length (rows scenario_loaded));
            columns := columns scenario_loaded;
            rows := map (set_nth j (Int 0)) (rows scenario_loaded) |}.
Proof.
  split; [exact scenario_well_formed|].
  split; [reflexivity|].
  apply (@load_data_twice scenario scenario_loaded).
  - exact scenario_well_formed.
  - reflexivity.
Defined.

(** On the frame as returned, whose index has lost the labels of the rows
    dropped, the second run drops the rows it finds no label for. *)
Example load_data_twice_gap :
  load_data scenario_loaded
  = Ok {| index := [Int 0; Int 1; Int 2];
          columns := [Review_text; Ratings];
          rows := [ [Str (lit "great"); Float 0];
                    [Str (lit "poor"); Float 0];
                    [Str (lit "average"); Float 0] ] |}.
Proof. reflexivity. Qed.

(** ** input_output *)

(** X7. After [load_data], a column can only be asked for under its
    normalised name: for a name that holds a space, or has white space at
    either end, [input_output] raises [KeyError]. *)
Theorem input_output_unnormalised_name (read df : DataFrame) (input output : pystr) :
  load_data read = Ok df ->
  In space input \/ ~ trimmed input ->
  input_output df input output = Err (KeyError input).
Proof.
  intros Hload Hname.
  destruct (load_data_inv _ Hload) as [j [_ [_ [_ [Hcols _]]]]].
  unfold input_output. rewrite getitem_absent; [reflexivity|].
  rewrite Hcols. intros Hin. apply in_map_iff in Hin.
  destruct Hin as [col [<- _]].
  destruct (normalize_column_clean col) as [Ht Hs].
  destruct Hname as [H | H]; contradiction.
Qed.

Lemma input_output_unnormalised_name_witness :
  load_data scenario = Ok scenario_loaded /\
  (In space (lit "Review text") \/ ~ trimmed (lit "Review text")) /\
  input_output scenario_loaded (lit "Review text") Ratings
  = Err (KeyError (lit "Review text")).
Proof.
  assert (H : In space (lit "Review text") \/ ~ trimmed (lit "Review text")).
  { left. vm_compute. tauto. }
  split; [reflexivity|]. split; [exact H|].
  exact (@input_output_unnormalised_name scenario scenario_loaded
           (lit "Review text") Ratings eq_refl H).
Defined.

(** X8. What [input_output] returns has one row for each row of the frame,
    for [X] and for [y] alike: the features and the target stay parallel. *)
Theorem input_output_parallel (data : DataFrame) (input output : pystr)
    (X y : selection) :
  input_output data input output = Ok (X, y) ->
  length (selection_rows X) = length (rows data) /\
  length (selection_rows y) = length (rows data).
Proof.
  unfold input_output.
  destruct (getitem data input) as [X0|e] eqn:EX; simpl; [|discriminate].
  destruct (getitem data output) as [y0|e] eqn:Ey; simpl; [|discriminate].
  intros [= <- <-].
  rewrite (getitem_rows _ _ EX), (getitem_rows _ _ Ey), !length_map. auto.
Qed.

Lemma input_output_parallel_witness :
  input_output scenario_loaded Review_text Ratings
  = Ok (Series [Str (lit "great"); Str (lit "poor"); Str (lit "average"); Str (lit "good")],
        Series [Int 1; Int 0; Int 0; Int 1]) /\
  length (selection_rows
            (Series [Str (lit "great"); Str (lit "poor"); Str (lit "average");
                     Str (lit "good")]))
  = length (rows scenario_loaded) /\
  length (selection_rows (Series [Int 1; Int 0; Int 0; Int 1]))
  = length (rows scenario_loaded).
Proof.
  split; [reflexivity|].
  apply (@input_output_parallel scenario_loaded Review_text Ratings).
  reflexivity.
Defined.

(** ** split_train_test *)

Lemma take_length (T : Type) (a : list T) (indices : list nat) :
  Forall (fun i => (i < length a)%nat) indices ->
  length (take a indices) = length indices.
Proof.
  unfold take. induction 1 as [|i indices Hi _ IH]; simpl; [reflexivity|].
  destruct (nth_error a i) as [x|] eqn:E.
  - simpl. now rewrite IH.
  - apply nth_error_None in E. lia.
Qed.

Lemma nth_error_combine (S T : Type) (a : list S) (b : list T) (i : nat) :
  nth_error (combine a b) i
  = match nth_error a i, nth_error b i with
    | Some x, Some y => Some (x, y)
    | _, _ => None
    end.
Proof.
  revert b i. induction a as [|x a IH]; intros [|y b] [|i]; simpl; try reflexivity.
  - now destruct (nth_error a i).
  - apply IH.
Qed.

Lemma combine_take (S T : Type) (a : list S) (b : list T) (indices : list nat) :
  length a = length b ->
  combine (take a indices) (take b indices) = take (combine a b) indices.
Proof.
  intros Hlen. unfold take.
  induction indices as [|i indices IH]; simpl; [reflexivity|].
  rewrite nth_error_combine.
  destruct (nth_error a i) as [x|] eqn:Ea; destruct (nth_error b i) as [y|] eqn:Eb;
    simpl.
  - now rewrite IH.
  - apply nth_error_None in Eb.
    assert (nth_error a i <> None) by congruence.
    apply nth_error_Some in H. lia.
  - apply nth_error_None in Ea.
    assert (nth_error b i <> None) by congruence.
    apply nth_error_Some in H. lia.
  - exact IH.
Qed.

(** What a successful split is made of. *)
Lemma split_train_test_inv (A B : Type) (R : RandomState) (global : rng R)
    (X : list A) (y : list B) (test_size : size) (random_state : seed_arg)
    (parts : list A * list A * list B * list B) :
  (forall g n, Permutation (fst (permutation R g n)) (seq 0 n)) ->
  fst (split_train_test R global X y test_size random_state) = Ok parts ->
  exists train test,
    validate_shuffle_split (length X) test_size = Ok (length train, length test) /\
    length X = length y /\
    Permutation (train ++ test) (seq 0 (length X)) /\
    parts = (take X train, take X test, take y train, take y test).
Proof.
  intros Hperm. unfold split_train_test, train_test_split, train_test_indices.
  destruct (validate_params test_size random_state) as [u|e];
    [|simpl; discriminate].
  destruct (length X =? length y)%nat eqn:En; simpl; [|discriminate].
  apply Nat.eqb_eq in En.
  destruct (validate_shuffle_split (length X) test_size)
    as [[n_train n_test]|e] eqn:Ev; simpl; [|discriminate].
  destruct (check_random_state R global random_state) as [[g is_global]|e];
    simpl; [|discriminate].
  specialize (Hperm g (length X)).
  destruct (permutation R g (length X)) as [perm g']. cbn [fst] in Hperm.
  destruct (validate_shuffle_split_ok _ _ Ev) as [_ Hsum].
  pose proof (shuffle_split_partition n_train n_test Hperm Hsum) as Hsp.
  destruct (shuffle_split perm n_train n_test) as [train test]. simpl.
  destruct Hsp as [Hp [Htr Hte]]. subst n_train n_test.
  destruct (safe_indexing X train) as [Xtr|e] eqn:E1; simpl; [|discriminate].
  destruct (safe_indexing X test) as [Xte|e] eqn:E2; simpl; [|discriminate].
  destruct (safe_indexing y train) as [ytr|e] eqn:E3; simpl; [|discriminate].
  destruct (safe_indexing y test) as [yte|e] eqn:E4; simpl; [|discriminate].
  intros [= <-].
  apply safe_indexing_take in E1, E2, E3, E4. subst.
  exists train, test. repeat split; auto.
Qed.

Lemma split_positions_in_range (train test : list nat) (n : nat) :
  Permutation (train ++ test) (seq 0 n) ->
  Forall (fun i => (i < n)%nat) train /\ Forall (fun i => (i < n)%nat) test.
Proof.
  intros Hp. apply Forall_app. apply Forall_forall. intros i Hi.
  apply (Permutation_in _ Hp) in Hi. apply in_seq in Hi. lia.
Qed.

Lemma ceiling_quarter (n : nat) :
  Z.to_nat (Qceiling ((1 # 4) * inject_Z (Z.of_nat n))) = ((n + 3) / 4)%nat.
Proof.
  unfold Qceiling, Qfloor, Qopp, Qmult, inject_Z. cbn [Qnum Qden].
  rewrite Z.mul_1_l. change (Z.pos (4 * 1)) with 4.
  apply Nat2Z.inj. rewrite Nat2Z.inj_div, Nat2Z.inj_add.
  change (Z.of_nat 3) with 3. change (Z.of_nat 4) with 4.
  assert (H0 : 0 <= Z.of_nat n) by lia.
  assert (Hd : - (- Z.of_nat n / 4) = (Z.of_nat n + 3) / 4).
  { generalize (Z.of_nat n) H0. intros z Hz.
    Z.to_euclidean_division_equations. lia. }
  rewrite Z2Nat.id; [exact Hd|]. rewrite Hd. apply Z.div_pos; lia.
Qed.

(** X9. With the default [test_size] of 0.25, a split of [n] rows puts
    exactly the quarter of [n], rounded up, in the test part and the others
    in the train part, for [X] and for [y] alike. *)
Theorem split_train_test_default_sizes (A B : Type) (R : RandomState)
    (global : rng R) (X : list A) (y : list B) (random_state : seed_arg)
    (X_train X_test : list A) (y_train y_test : list B) :
  (forall g n, Permutation (fst (permutation R g n)) (seq 0 n)) ->
  fst (split_train_test R global X y default_test_size random_state)
  = Ok (X_train, X_test, y_train, y_test) ->
  length X_test = ((length X + 3) / 4)%nat /\
  length X_train = (length X - (length X + 3) / 4)%nat /\
  length y_test = length X_test /\
  length y_train = length X_train.
Proof.
  intros Hperm Hsplit.
  destruct (@split_train_test_inv A B R global X y default_test_size random_state
              _ Hperm Hsplit)
    as [train [test [Hv [Hlen [Hp Hparts]]]]].
  injection Hparts as -> -> -> ->.
  destruct (@split_positions_in_range train test (length X) Hp) as [Htr Hte].
  rewrite !(@take_length A X) by assumption.
  rewrite Hlen in Htr, Hte.
  rewrite !(@take_length B y) by assumption.
  unfold validate_shuffle_split, default_test_size in Hv.
  cbv beta iota in Hv. rewrite ceiling_quarter in Hv.
  change (Qle_bool (1 # 4) 0 || Qle_bool 1 (1 # 4)) with false in Hv.
  cbn [bind] in Hv.
  destruct (_ =? 0)%nat; [discriminate|].
  injection Hv as Htrain Htest. rewrite <- Htrain, <- Htest. auto.
Qed.

Lemma split_train_test_default_sizes_witness :
  (forall g n, Permutation (fst (permutation rotating g n)) (seq 0 n)) /\
  fst (split_train_test rotating 0%nat [10; 20; 30; 40; 50] [1; 0; 0; 1; 1]
         default_test_size default_random_state)
  = Ok ([50; 10; 20], [30; 40], [1; 1; 0], [0; 1]) /\
  length [30; 40] = ((length [10; 20; 30; 40; 50] + 3) / 4)%nat /\
  length [50; 10; 20]
  = (length [10; 20; 30; 40; 50] - (length [10; 20; 30; 40; 50] + 3) / 4)%nat /\
  length [0; 1] = length [30; 40] /\
  length [1; 1; 0] = length [50; 10; 20].
Proof.
  split; [exact rotating_permutation|].
  split; [reflexivity|].
  apply (@split_train_test_default_sizes Z Z rotating 0%nat
           [10; 20; 30; 40; 50] [1; 0; 0; 1; 1] default_random_state
           [50; 10; 20] [30; 40] [1; 1; 0] [0; 1]).
  - exact rotating_permutation.
  - reflexivity.
Defined.

(** X10. With an int [test_size] of [k], a split that returns puts exactly
    [k] rows in the test part, and [k] is at least 1 and less than the
    number of rows. *)
Theorem split_train_test_count (A B : Type) (R : RandomState)
    (global : rng R) (X : list A) (y : list B) (k : Z) (random_state : seed_arg)
    (X_train X_test : list A) (y_train y_test : list B) :
  (forall g n, Permutation (fst (permutation R g n)) (seq 0 n)) ->
  fst (split_train_test R global X y (Count k) random_state)
  = Ok (X_train, X_test, y_train, y_test) ->
  0 < k < Z.of_nat (length X) /\
  Z.of_nat (length X_test) = k /\
  Z.of_nat (length X_train) = Z.of_nat (length X) - k.
Proof.
  intros Hperm Hsplit.
  destruct (@split_train_test_inv A B R global X y (Count k) random_state
              _ Hperm Hsplit)
    as [train [test [Hv [Hlen [Hp Hparts]]]]].
  injection Hparts as -> -> -> ->.
  destruct (@split_positions_in_range train test (length X) Hp) as [Htr Hte].
  rewrite !(@take_length A X) by assumption.
  unfold validate_shuffle_split in Hv. cbv beta iota in Hv.
  destruct ((Z.of_nat (length X) <=? k) || (k <=? 0)) eqn:Ek;
    [discriminate|].
  apply orb_false_iff in Ek. destruct Ek as [E1 E2].
  apply Z.leb_gt in E1, E2. cbn [bind] in Hv.
  destruct (_ =? 0)%nat; [discriminate|].
  injection Hv as Htrain Htest. lia.
Qed.

Lemma split_train_test_count_witness :
  (forall g n, Permutation (fst (permutation rotating g n)) (seq 0 n)) /\
  fst (split_train_test rotating 0%nat [10; 20; 30; 40; 50] [1; 0; 0; 1; 1]
         (Count 3) default_random_state)
  = Ok ([10; 20], [30; 40; 50], [1; 0], [0; 1; 1]) /\
  0 < 3 < Z.of_nat (length [10; 20; 30; 40; 50]) /\
  Z.of_nat (length [30; 40; 50]) = 3 /\
  Z.of_nat (length [10; 20]) = Z.of_nat (length [10; 20; 30; 40; 50]) - 3.
Proof.
  split; [exact rotating_permutation|].
  split; [reflexivity|].
  apply (@split_train_test_count Z Z rotating 0%nat
           [10; 20; 30; 40; 50] [1; 0; 0; 1; 1] 3 default_random_state
           [10; 20] [30; 40; 50] [1; 0] [0; 1; 1]).
  - exact rotating_permutation.
  - reflexivity.
Defined.

(** X11. The split keeps every sample with its own label: the pairs
    (sample, label) of the train part and of the test part are, together,
    the pairs of the input, rearranged. *)
Theorem split_train_test_aligned (A B : Type) (R : RandomState)
    (global : rng R) (X : list A) (y : list B) (test_size : size)
    (random_state : seed_arg)
    (X_train X_test : list A) (y_train y_test : list B) :
  (forall g n, Permutation (fst (permutation R g n)) (seq 0 n)) ->
  fst (split_train_test R global X y test_size random_state)
  = Ok (X_train, X_test, y_train, y_test) ->
  length X_train = length y_train /\
  length X_test = length y_test /\
  Permutation (combine X_train y_train ++ combine X_test y_test) (combine X y).
Proof.
  intros Hperm Hsplit.
  destruct (@split_train_test_inv A B R global X y test_size random_state
              _ Hperm Hsplit)
    as [train [test [Hv [Hlen [Hp Hparts]]]]].
  injection Hparts as -> -> -> ->.
  destruct (@split_positions_in_range train test (length X) Hp) as [Htr Hte].
  rewrite !(@take_length A X) by assumption.
  rewrite Hlen in Htr, Hte.
  rewrite !(@take_length B y) by assumption.
  split; [reflexivity|]. split; [reflexivity|].
  rewrite !combine_take by exact Hlen. rewrite <- take_app.
  apply take_permutation.
  rewrite length_combine, <- Hlen, Nat.min_id. exact Hp.
Qed.

Lemma split_train_test_aligned_witness :
  (forall g n, Permutation (fst (permutation rotating g n)) (seq 0 n)) /\
  fst (split_train_test rotating 0%nat [10; 20; 30; 40] [1; 0; 0; 1]
         default_test_size default_random_state)
  = Ok ([40; 10; 20], [30], [1; 1; 0], [0]) /\
  length [40; 10; 20] = length [1; 1; 0] /\
  length [30] = length [0] /\
  Permutation (combine [40; 10; 20] [1; 1; 0] ++ combine [30] [0])
              (combine [10; 20; 30; 40] [1; 0; 0; 1]).
Proof.
  split; [exact rotating_permutation|].
  split; [reflexivity|].
  apply (@split_train_test_aligned Z Z rotating 0%nat
           [10; 20; 30; 40] [1; 0; 0; 1] default_test_size default_random_state
           [40; 10; 20] [30] [1; 1; 0] [0]).
  - exact rotating_permutation.
  - reflexivity.
Defined.

Lemma ceiling_positive (q : Q) (n : nat) :
  Qle_bool q 0 = false -> (0 < n)%nat ->
  0 < Qceiling (q * inject_Z (Z.of_nat n)).
Proof.
  intros Hq Hn.
  assert (H0 : (0 < q)%Q).
  { apply Qnot_le_lt. intros H. apply Qle_bool_iff in H. congruence. }
  assert (Hn' : (0 < inject_Z (Z.of_nat n))%Q).
  { change 0%Q with (inject_Z 0). rewrite <- Zlt_Qlt. lia. }
  pose proof (Qmult_lt_0_compat _ _ H0 Hn') as Hx.
  pose proof (Qle_ceiling (q * inject_Z (Z.of_nat n))) as Hc.
  pose proof (Qlt_le_trans _ _ _ Hx Hc) as Hpos.
  change 0%Q with (inject_Z 0) in Hpos. now rewrite <- Zlt_Qlt in Hpos.
Qed.

(** A split that is accepted leaves at least one row on each side. *)
Lemma validate_shuffle_split_both (n : nat) (test_size : size) (n_train n_test : nat) :
  validate_shuffle_split n test_size = Ok (n_train, n_test) ->
  (0 < n_train /\ 0 < n_test /\ n_train + n_test = n)%nat.
Proof.
  intros Hv. destruct (validate_shuffle_split_ok _ _ Hv) as [Htr Hsum].
  split; [exact Htr|]. split; [|exact Hsum].
  assert (Hn : (0 < n)%nat) by lia.
  unfold validate_shuffle_split in Hv.
  assert (Hfrac : forall q,
            (n_test0 <- (if Qle_bool q 0 || Qle_bool 1 q
                         then Err ValueError_test_size
                         else Ok (Z.to_nat (Qceiling (q * inject_Z (Z.of_nat n))))) ;;
             (if (n - n_test0 =? 0)%nat then Err ValueError_empty_train
              else Ok ((n - n_test0)%nat, n_test0)))
            = Ok (n_train, n_test) -> (0 < n_test)%nat).
  { intros q Hq.
    destruct (Qle_bool q 0) eqn:E0; simpl in Hq; [discriminate|].
    destruct (Qle_bool 1 q); simpl in Hq; [discriminate|].
    destruct (_ =? 0)%nat; [discriminate|].
    injection Hq as _ <-. pose proof (ceiling_positive q E0 Hn). lia. }
  destruct test_size as [q|k|].
  - now apply (Hfrac q).
  - cbv beta iota in Hv.
    destruct ((Z.of_nat n <=? k) || (k <=? 0)) eqn:Ek; [discriminate|].
    apply orb_false_iff in Ek. destruct Ek as [_ E2]. apply Z.leb_gt in E2.
    cbn [bind] in Hv. destruct (_ =? 0)%nat; [discriminate|].
    injection Hv as _ <-. lia.
  - now apply (Hfrac (1 # 4)).
Qed.

(** X12. A table of fewer than two rows cannot be split: whatever the
    [test_size] and the seed, [split_train_test] raises [ValueError]. *)
Theorem split_train_test_too_small (A B : Type) (R : RandomState)
    (global : rng R) (X : list A) (y : list B) (test_size : size)
    (random_state : seed_arg) :
  (length X <= 1)%nat ->
  exists e,
    fst (split_train_test R global X y test_size random_state) = Err e /\
    exn_class e = "ValueError"%string.
Proof.
  intros Hn. unfold split_train_test, train_test_split, train_test_indices.
  destruct (validate_params test_size random_state) as [u|e] eqn:Ep.
  - destruct (length X =? length y)%nat; simpl; [|eauto].
    destruct (validate_shuffle_split (length X) test_size)
      as [[n_train n_test]|e] eqn:Ev; simpl.
    + apply validate_shuffle_split_both in Ev. lia.
    + exists e. split; [reflexivity|]. eapply validate_shuffle_split_class; eauto.
  - exists e. split; [reflexivity|]. eapply validate_params_class; eauto.
Qed.

Lemma split_train_test_too_small_witness :
  (length [10] <= 1)%nat /\
  exists e,
    fst (split_train_test rotating 0%nat [10] [1]
           default_test_size default_random_state) = Err e /\
    exn_class e = "ValueError"%string.
Proof.
  assert (H : (length [10] <= 1)%nat) by (simpl; lia).
  split; [exact H|].
  exact (@split_train_test_too_small Z Z rotating 0%nat [10] [1]
           default_test_size default_random_state H).
Defined.

(** ** train_model *)

(** X13. With fewer than 4 training samples [train_model] returns no fitted
    search: it raises [ValueError], whatever the grid and the labels. *)
Theorem train_model_too_few_samples (E : Estimator) (splitter : Splitter)
    (X_train : list (sample E)) (y_train : list label)
    (hyperparameters : list (pystr * list (param E))) :
  (length X_train < 4)%nat ->
  exists e,
    train_model E splitter X_train y_train hyperparameters = Err e /\
    exn_class e = "ValueError"%string.
Proof.
  intros Hn. unfold train_model, GridSearchCV_fit.
  change (get_scorer (lit "f1")) with (Ok f1_score). simpl.
  destruct (length X_train =? length y_train)%nat eqn:En; simpl; [|eauto].
  apply Nat.eqb_eq in En.
  destruct (ParameterGrid hyperparameters) as [candidates|e] eqn:Eg; simpl.
  - unfold kfold_split.
    destruct (length y_train =? 0)%nat; simpl; [eauto|].
    destruct (length y_train <? 4)%nat eqn:E4; simpl; [eauto|].
    apply Nat.ltb_ge in E4. lia.
  - exists e. split; [reflexivity|]. unfold ParameterGrid in Eg.
    destruct (find _ hyperparameters); [|discriminate]. now injection Eg as <-.
Qed.

Lemma train_model_too_few_samples_witness :
  (length (firstn 3 reviews) < 4)%nat /\
  exists e,
    train_model majority round_robin (firstn 3 reviews) (firstn 3 sentiments)
                HYPERPARAMETERS = Err e /\
    exn_class e = "ValueError"%string.
Proof.
  assert (H : (length (firstn 3 reviews) < 4)%nat) by (simpl; lia).
  split; [exact H|].
  exact (@train_model_too_few_samples majority round_robin (firstn 3 reviews)
           (firstn 3 sentiments) HYPERPARAMETERS H).
Defined.

(** X14. When a parameter of the grid has no candidate value, and there are
    as many labels as samples, [train_model] raises the [ValueError] that
    names such a parameter; no fit is made. *)
Theorem train_model_empty_candidates (E : Estimator) (splitter : Splitter)
    (X_train : list (sample E)) (y_train : list label)
    (hyperparameters : list (pystr * list (param E))) (key : pystr) :
  length X_train = length y_train ->
  In (key, []) hyperparameters ->
  exists key',
    train_model E splitter X_train y_train hyperparameters
    = Err (ValueError_empty_grid key') /\
    In (key', []) hyperparameters.
Proof.
  intros Hlen Hin. unfold train_model, GridSearchCV_fit.
  change (get_scorer (lit "f1")) with (Ok f1_score). simpl.
  rewrite Hlen, Nat.eqb_refl. simpl. unfold ParameterGrid.
  destruct (find _ hyperparameters) as [[k vs]|] eqn:Ef.
  - apply find_some in Ef. destruct Ef as [Hk Hvs]. simpl in Hvs.
    destruct vs; [|discriminate]. exists k. split; [reflexivity | exact Hk].
  - apply (find_none _ _ Ef) in Hin. discriminate.
Qed.

Lemma train_model_empty_candidates_witness :
  length reviews = length sentiments /\
  In (lit "classifier__alpha", [])
     [(lit "vectorization__max_features", [Number 5000]);
      (lit "classifier__alpha", [])] /\
  exists key',
    train_model majority round_robin reviews sentiments
      [(lit "vectorization__max_features", [Number 5000]);
       (lit "classifier__alpha", [])]
    = Err (ValueError_empty_grid key') /\
    In (key', [])
       [(lit "vectorization__max_features", [Number 5000]);
        (lit "classifier__alpha", [])].
Proof.
  assert (Hin : In (lit "classifier__alpha", @nil hyperparameter)
                   [(lit "vectorization__max_features", [Number 5000]);
                    (lit "classifier__alpha", [])]) by (simpl; auto).
  split; [reflexivity|]. split; [exact Hin|].
  exact (@train_model_empty_candidates majority round_robin reviews sentiments
           [(lit "vectorization__max_features", [Number 5000]);
            (lit "classifier__alpha", [])]
           (lit "classifier__alpha") eq_refl Hin).
Defined.

Lemma single_candidates_count (V : Type) (items : list (pystr * list V)) :
  Forall (fun item => length (snd item) = 1%nat) items ->
  fold_right (fun item n => (length (snd item) * n)%nat) 1%nat items = 1%nat.
Proof.
  induction 1 as [|item items Hitem _ IH]; simpl; [reflexivity|].
  rewrite Hitem, IH. reflexivity.
Qed.

(** X15. A grid that gives every parameter one candidate value, as the grid
    of the workflow does, has one setting: the search returned by
    [train_model] holds one result, its best setting is that one, and the
    estimator it returns is fitted with it on the whole training set. *)
Theorem train_model_grid_of_one (E : Estimator) (splitter : Splitter)
    (X_train : list (sample E)) (y_train : list label)
    (hyperparameters : list (pystr * list (param E))) (clf : GridSearchCV E) :
  Forall (fun item => length (snd item) = 1%nat) hyperparameters ->
  train_model E splitter X_train y_train hyperparameters = Ok clf ->
  exists result,
    cv_results_ clf = [result] /\
    best_index_ clf = 0%nat /\
    best_params_ clf = params result /\
    Forall2 (@picks (param E)) (best_params_ clf) (sorted_items hyperparameters) /\
    best_estimator_ clf = Some (fit E (params result) X_train y_train).
Proof.
  intros Hone Htrain.
  destruct (@train_model_inv E splitter X_train y_train hyperparameters clf Htrain)
    as [candidates [splits [_ [Hgrid [_ [_ [Hres [_ [_ [Hbest [Hparams [_ Hfit]]]]]]]]]]]].
  destruct (@ParameterGrid_spec (param E) hyperparameters candidates Hgrid)
    as [Hall [Hcount _]].
  rewrite single_candidates_count in Hcount
    by (rewrite sorted_items_permutation; exact Hone).
  destruct candidates as [|c [|c' cs]]; simpl in Hcount; try discriminate.
  simpl in Hres. rewrite Hres in Hbest.
  assert (Hzero : best_index_ clf = 0%nat).
  { rewrite Hbest. unfold rank_first. simpl.
    destruct (mean (map fst (map (fit_and_score E f1_score X_train y_train c) splits)));
      reflexivity. }
  rewrite Hzero in Hparams. simpl in Hparams.
  eexists. split; [exact Hres|]. split; [exact Hzero|]. simpl.
  split; [exact Hparams|].
  split; [rewrite Hparams; apply Hall; now left|].
  now rewrite Hfit, Hparams.
Qed.

Lemma train_model_grid_of_one_witness :
  Forall (fun item : pystr * list hyperparameter => length (snd item) = 1%nat)
         HYPERPARAMETERS /\
  exists clf,
    train_model majority round_robin reviews sentiments HYPERPARAMETERS = Ok clf /\
    exists result,
      cv_results_ clf = [result] /\
      best_index_ clf = 0%nat /\
      best_params_ clf = params result /\
      Forall2 (@picks (param majority)) (best_params_ clf)
              (sorted_items HYPERPARAMETERS) /\
      best_estimator_ clf = Some (fit majority (params result) reviews sentiments).
Proof.
  assert (Hone : Forall (fun item : pystr * list hyperparameter =>
                           length (snd item) = 1%nat) HYPERPARAMETERS)
    by (repeat constructor).
  split; [exact Hone|].
  assert (H : exists clf,
             train_model majority round_robin reviews sentiments HYPERPARAMETERS
             = Ok clf).
  { vm_compute. eexists. reflexivity. }
  destruct H as [clf H]. exists clf. split; [exact H|].
  exact (@train_model_grid_of_one majority round_robin reviews sentiments
           HYPERPARAMETERS clf Hone H).
Defined.

Lemma argmax_from_first (l pre : list Q) (best_i : nat) (best : Q) :
  nth_error pre best_i = Some best ->
  Forall (fun x => (x <= best)%Q) pre ->
  (forall i x, (i < best_i)%nat -> nth_error pre i = Some x -> (x < best)%Q) ->
  exists q,
    nth_error (pre ++ l) (argmax_from (length pre) best_i best l) = Some q /\
    forall i x,
      (i < argmax_from (length pre) best_i best l)%nat ->
      nth_error (pre ++ l) i = Some x -> (x < q)%Q.
Proof.
  revert pre best_i best.
  induction l as [|x l IH]; intros pre best_i best Hb Hle Hlt.
  - simpl. rewrite app_nil_r. eauto.
  - assert (Hbi : (best_i < length pre)%nat)
      by (apply nth_error_Some; congruence).
    simpl. replace (pre ++ x :: l) with ((pre ++ [x]) ++ l)
      by now rewrite <- app_assoc.
    replace (S (length pre)) with (length (pre ++ [x]))
      by (rewrite length_app; simpl; lia).
    destruct (Qle_bool x best) eqn:E.
    + apply Qle_bool_iff in E. apply IH.
      * now rewrite nth_error_app1.
      * apply Forall_app. split; [exact Hle | now constructor].
      * intros i a Hi Ha. rewrite nth_error_app1 in Ha by lia. eauto.
    + assert (Hx : (best < x)%Q).
      { apply Qnot_le_lt. intros H. apply Qle_bool_iff in H. congruence. }
      apply IH.
      * rewrite nth_error_app2, Nat.sub_diag by lia. reflexivity.
      * apply Forall_app. split.
        -- eapply Forall_impl; [|exact Hle]. simpl. intros a Ha.
           apply Qlt_le_weak. eapply Qle_lt_trans; eauto.
        -- constructor; [apply Qle_refl | constructor].
      * intros i a Hi Ha. rewrite nth_error_app1 in Ha by exact Hi.
        rewrite Forall_forall in Hle.
        eapply Qle_lt_trans; [|exact Hx]. apply Hle.
        eapply nth_error_In; eauto.
Qed.

(** [argmax] points at the first of the greatest elements. *)
Lemma argmax_first (l : list Q) :
  l <> [] ->
  exists q,
    nth_error l (argmax l) = Some q /\
    forall i x, (i < argmax l)%nat -> nth_error l i = Some x -> (x < q)%Q.
Proof.
  destruct l as [|x l]; [contradiction|]. intros _.
  apply (@argmax_from_first l [x] 0%nat x).
  - reflexivity.
  - constructor; [apply Qle_refl | constructor].
  - intros i a Hi. lia.
Qed.

Lemma nanmin_in (l : list score) (m : Q) : nanmin l = Some m -> In (Some m) l.
Proof.
  revert m. induction l as [|a l IH]; intros m; simpl; [discriminate|].
  destruct a as [x|].
  - destruct (nanmin l) as [m'|] eqn:Em.
    + destruct (Qle_bool x m'); intros [= <-]; [now left | right; now apply IH].
    + intros [= <-]. now left.
  - intros H. right. now apply IH.
Qed.

Lemma Qminus_one_lt (m : Q) : (m - 1 < m)%Q.
Proof.
  rewrite <- (Qplus_0_r m) at 2. unfold Qminus. apply Qplus_lt_r. reflexivity.
Qed.

(** Before the position [rank_first] picks there are only [nan] means and
    means strictly smaller than the one picked, which is not [nan]. *)
Lemma rank_first_first (means : list score) (i : nat) (a : score) :
  (i < rank_first means)%nat ->
  nth_error means i = Some a ->
  exists qb,
    nth_error means (rank_first means) = Some (Some qb) /\
    forall q, a = Some q -> (q < qb)%Q.
Proof.
  unfold rank_first. destruct (nanmin means) as [m|] eqn:Em; [|lia].
  set (f := fun a : score => match a with Some q => q | None => (m - 1)%Q end).
  intros Hi Ha.
  assert (Hne : map f means <> []).
  { destruct means; [destruct i; discriminate | discriminate]. }
  destruct (argmax_first Hne) as [q0 [Hq0 Hfirst]].
  destruct (argmax_spec Hne) as [q1 [Hq1 Hmax]].
  rewrite Hq0 in Hq1. injection Hq1 as <-.
  rewrite nth_error_map in Hq0.
  destruct (nth_error means (argmax (map f means))) as [b|]; [|discriminate].
  injection Hq0 as <-.
  destruct b as [qb|].
  - exists qb. split; [reflexivity|]. intros q ->.
    apply (Hfirst i q Hi). now rewrite nth_error_map, Ha.
  - exfalso. rewrite Forall_map, Forall_forall in Hmax.
    pose proof (Hmax _ (nanmin_in _ Em)) as Hle. simpl in Hle.
    apply (Qlt_irrefl m). eapply Qle_lt_trans; [exact Hle | apply Qminus_one_lt].
Qed.

(** X16. Among settings with the same mean held-out score the first one
    wins: when a result comes before the best one in the search, the best
    one has a mean held-out F1 score that is not [nan], and the earlier
    result has a [nan] mean or a strictly smaller one. *)
Theorem train_model_first_best (E : Estimator) (splitter : Splitter)
    (X_train : list (sample E)) (y_train : list label)
    (hyperparameters : list (pystr * list (param E))) (clf : GridSearchCV E) :
  train_model E splitter X_train y_train hyperparameters = Ok clf ->
  exists best,
    nth_error (cv_results_ clf) (best_index_ clf) = Some best /\
    forall i r,
      (i < best_index_ clf)%nat ->
      nth_error (cv_results_ clf) i = Some r ->
      exists qb,
        mean_test_score best = Some qb /\
        forall q, mean_test_score r = Some q -> (q < qb)%Q.
Proof.
  intros Htrain.
  destruct (@train_model_inv E splitter X_train y_train hyperparameters clf Htrain)
    as [candidates [splits [_ [Hgrid [_ [_ [Hres [_ [_ [Hbest _]]]]]]]]]].
  destruct (@ParameterGrid_spec (param E) hyperparameters candidates Hgrid)
    as [_ [_ Hne]].
  destruct (@rank_first_spec (map (@mean_test_score E) (cv_results_ clf)))
    as [a [Ha _]].
  { rewrite Hres. destruct candidates; [contradiction | discriminate]. }
  rewrite <- Hbest, nth_error_map in Ha.
  destruct (nth_error (cv_results_ clf) (best_index_ clf)) as [best|] eqn:Eb;
    [|discriminate].
  exists best. split; [reflexivity|].
  intros i r Hi Hr.
  destruct (@rank_first_first (map (@mean_test_score E) (cv_results_ clf)) i
              (mean_test_score r)) as [qb [Hqb Hlt]].
  - now rewrite <- Hbest.
  - now rewrite nth_error_map, Hr.
  - rewrite <- Hbest, nth_error_map, Eb in Hqb. injection Hqb as Hqb.
    exists qb. split; [exact Hqb | exact Hlt].
Qed.

Lemma train_model_first_best_witness :
  exists clf,
    train_model majority round_robin reviews sentiments failing_first = Ok clf /\
    best_index_ clf = 1%nat /\
    exists best,
      nth_error (cv_results_ clf) (best_index_ clf) = Some best /\
      forall i r,
        (i < best_index_ clf)%nat ->
        nth_error (cv_results_ clf) i = Some r ->
        exists qb,
          mean_test_score best = Some qb /\
          forall q, mean_test_score r = Some q -> (q < qb)%Q.
Proof.
  assert (H : exists clf,
             train_model majority round_robin reviews sentiments failing_first
             = Ok clf /\ best_index_ clf = 1%nat).
  { vm_compute. eexists. split; reflexivity. }
  destruct H as [clf [H Hb]]. exists clf. split; [exact H|]. split; [exact Hb|].
  exact (@train_model_first_best majority round_robin reviews sentiments
           failing_first clf H).
Defined.

Lemma in_combine_seq (T : Type) (l : list T) (s i : nat) (x : T) :
  In (i, x) (combine (seq s (length l)) l) <->
  (s <= i)%nat /\ nth_error l (i - s) = Some x.
Proof.
  revert s. induction l as [|a l IH]; intros s; simpl.
  - split; [tauto|]. intros [_ H]. now destruct (i - s)%nat.
  - rewrite IH. split.
    + intros [[= <- <-] | [Hle Hn]].
      * rewrite Nat.sub_diag. auto.
      * split; [lia|]. replace (i - s)%nat with (S (i - S s)) by lia. exact Hn.
    + intros [Hle Hn]. destruct (Nat.eq_dec s i) as [->|Hne].
      * rewrite Nat.sub_diag in Hn. simpl in Hn. left. congruence.
      * right. split; [lia|].
        replace (i - s)%nat with (S (i - S s)) in Hn by lia. exact Hn.
Qed.

Lemma positions_in_fold_spec (keep : nat -> bool) (test_folds : list nat) (i : nat) :
  In i (positions_in_fold keep test_folds) <->
  exists f, nth_error test_folds i = Some f /\ keep f = true.
Proof.
  unfold positions_in_fold. rewrite in_map_iff. split.
  - intros [[i' f] [Hi Hin]]. simpl in Hi. subst i'.
    apply filter_In in Hin. destruct Hin as [Hin Hk].
    apply in_combine_seq in Hin. rewrite Nat.sub_0_r in Hin.
    exists f. split; [apply Hin | exact Hk].
  - intros [f [Hn Hk]]. exists (i, f). split; [reflexivity|].
    apply filter_In. split; [|exact Hk].
    apply in_combine_seq. rewrite Nat.sub_0_r. split; [lia | exact Hn].
Qed.

(** X17. In the folds [train_model] searches over, a sample that the
    splitter assigns to fold [f] is held out in the split of fold [f] and in
    no other, and is a train sample of every other split and not of that
    one. *)
Theorem kfold_split_held_out_once (splitter : Splitter) (n_splits : nat)
    (y : list label) (test_folds : list nat)
    (splits : list (list nat * list nat)) (i f j : nat) (s : list nat * list nat) :
  splitter n_splits y = Ok test_folds ->
  kfold_split splitter n_splits y = Ok splits ->
  nth_error test_folds i = Some f ->
  nth_error splits j = Some s ->
  (In i (snd s) <-> j = f) /\ (In i (fst s) <-> j <> f).
Proof.
  intros Hfolds Hsplit Hi Hj.
  destruct (@kfold_split_folds splitter n_splits y splits Hsplit)
    as [_ [_ [test_folds' [Hfolds' ->]]]].
  rewrite Hfolds in Hfolds'. injection Hfolds' as <-.
  rewrite nth_error_map in Hj.
  destruct (nth_error (seq 0 n_splits) j) as [j'|] eqn:Ej; [|discriminate].
  assert (j' = j).
  { pose proof (nth_error_nth _ _ 0%nat Ej) as Hn.
    rewrite seq_nth in Hn; [lia|].
    rewrite <- (length_seq n_splits 0). apply nth_error_Some. congruence. }
  subst j'. simpl in Hj. injection Hj as <-. simpl.
  rewrite !positions_in_fold_spec. split; split.
  - intros [f' [Hf' Hk]]. rewrite Hi in Hf'. injection Hf' as <-.
    apply Nat.eqb_eq in Hk. congruence.
  - intros ->. exists f. split; [exact Hi | apply Nat.eqb_refl].
  - intros [f' [Hf' Hk]]. rewrite Hi in Hf'. injection Hf' as <-.
    apply negb_true_iff, Nat.eqb_neq in Hk. congruence.
  - intros Hne. exists f. split; [exact Hi|].
    apply negb_true_iff, Nat.eqb_neq. congruence.
Qed.

Lemma kfold_split_held_out_once_witness :
  round_robin 4%nat sentiments = Ok [0; 1; 2; 3; 0; 1; 2; 3]%nat /\
  kfold_split round_robin 4 sentiments
  = Ok [ ([1; 2; 3; 5; 6; 7], [0; 4]); ([0; 2; 3; 4; 6; 7], [1; 5]);
         ([0; 1; 3; 4; 5; 7], [2; 6]); ([0; 1; 2; 4; 5; 6], [3; 7]) ]%nat /\
  (In 5%nat (snd ([0; 2; 3; 4; 6; 7], [1; 5]))%nat <-> 1%nat = 1%nat) /\
  (In 5%nat (fst ([0; 2; 3; 4; 6; 7], [1; 5]))%nat <-> 1%nat <> 1%nat).
Proof.
  split; [reflexivity|]. split; [reflexivity|].
  apply (@kfold_split_held_out_once round_robin 4%nat sentiments
           [0; 1; 2; 3; 0; 1; 2; 3]%nat
           [ ([1; 2; 3; 5; 6; 7], [0; 4]); ([0; 2; 3; 4; 6; 7], [1; 5]);
             ([0; 1; 3; 4; 5; 7], [2; 6]); ([0; 1; 2; 4; 5; 6], [3; 7]) ]%nat
           5%nat 1%nat 1%nat ([0; 2; 3; 4; 6; 7], [1; 5])%nat);
    reflexivity.
Defined.

(** ** f1_score *)

Lemma count_pairs_nonneg (t p : bool) (y_true y_pred : list label) :
  0 <= count_pairs t p y_true y_pred.
Proof. unfold count_pairs. lia. Qed.

Lemma f1_score_range (y_true y_pred : list label) :
  (0 <= f1_score y_true y_pred)%Q /\ (f1_score y_true y_pred <= 1)%Q.
Proof.
  unfold f1_score.
  pose proof (count_pairs_nonneg true true y_true y_pred) as Htp.
  pose proof (count_pairs_nonneg false true y_true y_pred) as Hfp.
  pose proof (count_pairs_nonneg true false y_true y_pred) as Hfn.
  set (tp := count_pairs true true y_true y_pred) in *.
  set (fp := count_pairs false true y_true y_pred) in *.
  set (fn := count_pairs true false y_true y_pred) in *.
  destruct (2 * tp + fp + fn =? 0) eqn:E.
  - split; unfold Qle; simpl; lia.
  - apply Z.eqb_neq in E. split; unfold Qle; cbn [Qnum Qden].
    + lia.
    + rewrite Z2Pos.id by lia. lia.
Qed.

(** X18. An F1 score lies between 0 and 1, whatever the labels and the
    predictions, also when they are not equally many. *)
Theorem f1_score_bounds (y_true y_pred : list label) :
  (0 <= f1_score y_true y_pred)%Q /\ (f1_score y_true y_pred <= 1)%Q.
Proof. exact (f1_score_range y_true y_pred). Qed.

Lemma count_pairs_swap (t p : bool) (a b : list label) :
  count_pairs t p a b = count_pairs p t b a.
Proof.
  unfold count_pairs. f_equal. revert b.
  induction a as [|x a IH]; intros [|y b]; simpl; try reflexivity.
  rewrite (andb_comm (Bool.eqb x t)).
  destruct (Bool.eqb y p && Bool.eqb x t); simpl; now rewrite IH.
Qed.

(** X19. The F1 score does not change when the true labels and the
    predictions change places. *)
Theorem f1_score_symmetric (y_true y_pred : list label) :
  f1_score y_true y_pred = f1_score y_pred y_true.
Proof.
  unfold f1_score.
  rewrite (count_pairs_swap true true y_true y_pred).
  rewrite (count_pairs_swap false true y_true y_pred).
  rewrite (count_pairs_swap true false y_true y_pred).
  replace (2 * count_pairs true true y_pred y_true
           + count_pairs true false y_pred y_true
           + count_pairs false true y_pred y_true)
    with (2 * count_pairs true true y_pred y_true
          + count_pairs false true y_pred y_true
          + count_pairs true false y_pred y_true) by lia.
  reflexivity.
Qed.

Lemma count_pairs_diag (t p : bool) (y : list label) :
  t <> p -> count_pairs t p y y = 0.
Proof.
  intros Hne. unfold count_pairs.
  induction y as [|x y IH]; simpl; [reflexivity|].
  destruct x, t, p; simpl; try congruence; exact IH.
Qed.

Lemma count_pairs_positive (y : list label) :
  In true y -> 0 < count_pairs true true y y.
Proof.
  unfold count_pairs. induction y as [|x y IH]; simpl; [tauto|].
  intros [-> | Hin]; simpl; [lia|].
  destruct x; simpl; [lia | now apply IH].
Qed.

(** X20. Predictions that equal the true labels score 1 as soon as one label
    is positive; and whatever the predictions, the score is 0 when no sample
    is both labelled and predicted positive. *)
Theorem f1_score_extremes (y_true y_pred : list label) :
  (In true y_true -> (f1_score y_true y_true == 1)%Q) /\
  (count_pairs true true y_true y_pred = 0 -> (f1_score y_true y_pred == 0)%Q).
Proof.
  split.
  - intros Hin. unfold f1_score.
    rewrite (count_pairs_diag (t := false) (p := true)) by discriminate.
    rewrite (count_pairs_diag (t := true) (p := false)) by discriminate.
    pose proof (count_pairs_positive _ Hin) as Hpos.
    destruct (_ =? 0) eqn:E; [apply Z.eqb_eq in E; lia|].
    unfold Qeq. cbn [Qnum Qden]. rewrite Z2Pos.id by lia. lia.
  - intros Htp. unfold f1_score. rewrite Htp.
    destruct (_ =? 0); [reflexivity|]. unfold Qeq. cbn [Qnum Qden]. lia.
Qed.

Lemma f1_score_extremes_witness :
  In true sentiments /\
  (f1_score sentiments sentiments == 1)%Q /\
  count_pairs true true sentiments (map negb sentiments) = 0 /\
  (f1_score sentiments (map negb sentiments) == 0)%Q.
Proof.
  assert (Hin : In true sentiments) by (simpl; auto).
  assert (Htp : count_pairs true true sentiments (map negb sentiments) = 0)
    by reflexivity.
  split; [exact Hin|].
  split; [exact (proj1 (f1_score_extremes sentiments sentiments) Hin)|].
  split; [exact Htp|].
  exact (proj2 (f1_score_extremes sentiments (map negb sentiments)) Htp).
Defined.

(** ** evaluate_model *)

Lemma GridSearchCV_predict_fitted (E : Estimator) (model : GridSearchCV E)
    (m : fitted E) (X : list (sample E)) :
  best_estimator_ model = Some m -> X <> [] ->
  GridSearchCV_predict model X = Scored (map (predict E m) X).
Proof.
  intros Hm HX. unfold GridSearchCV_predict. rewrite Hm.
  destruct X; [contradiction | reflexivity].
Qed.

Lemma evaluate_model_fitted (E : Estimator) (model : GridSearchCV E)
    (m : fitted E) (X_train : list (sample E)) (y_train : list label)
    (X_test : list (sample E)) (y_test : list label) :
  best_estimator_ model = Some m ->
  X_train <> [] -> X_test <> [] ->
  length X_train = length y_train ->
  length X_test = length y_test ->
  evaluate_model model X_train y_train X_test y_test
  = Scored (f1_score y_train (map (predict E m) X_train),
            f1_score y_test (map (predict E m) X_test)).
Proof.
  intros Hm Htr Hte Hltr Hlte. unfold evaluate_model, metrics_f1_score.
  rewrite (@GridSearchCV_predict_fitted E model m X_train Hm Htr).
  rewrite (@GridSearchCV_predict_fitted E model m X_test Hm Hte).
  rewrite !length_map, <- Hltr, <- Hlte, !Nat.eqb_refl. cbn [negb].
  destruct y_train as [|b y_train]; [destruct X_train; [contradiction | discriminate]|].
  destruct y_test as [|b' y_test]; [destruct X_test; [contradiction | discriminate]|].
  reflexivity.
Qed.

(** X21. [evaluate_model] returns two scores exactly when the search has a
    refitted estimator, neither [X_train] nor [X_test] is empty and each has
    as many labels as samples: under these conditions it returns the F1
    scores of that estimator's predictions on the two sets, and whenever it
    returns scores the conditions hold and the scores are these. *)
Theorem evaluate_model_returns (E : Estimator) (model : GridSearchCV E)
    (X_train : list (sample E)) (y_train : list label)
    (X_test : list (sample E)) (y_test : list label) :
  (forall m,
     best_estimator_ model = Some m ->
     X_train <> [] -> X_test <> [] ->
     length X_train = length y_train ->
     length X_test = length y_test ->
     evaluate_model model X_train y_train X_test y_test
     = Scored (f1_score y_train (map (predict E m) X_train),
               f1_score y_test (map (predict E m) X_test))) /\
  (forall scores,
     evaluate_model model X_train y_train X_test y_test = Scored scores ->
     exists m,
       best_estimator_ model = Some m /\
       X_train <> [] /\ X_test <> [] /\
       length X_train = length y_train /\
       length X_test = length y_test /\
       scores = (f1_score y_train (map (predict E m) X_train),
                 f1_score y_test (map (predict E m) X_test))).
Proof.
  split.
  - intros m. apply evaluate_model_fitted.
  - intros scores Hs. pose proof Hs as Hs'.
    unfold evaluate_model, GridSearchCV_predict, metrics_f1_score in Hs.
    destruct (best_estimator_ model) as [m|] eqn:Hm; [|discriminate].
    destruct X_train as [|x X_train]; [discriminate|].
    destruct X_test as [|x' X_test]; [discriminate|].
    rewrite !length_map in Hs.
    destruct (length y_train =? length (x :: X_train))%nat eqn:E1; [|discriminate].
    destruct (length y_test =? length (x' :: X_test))%nat eqn:E2;
      [|cbn [negb] in Hs; destruct y_train; discriminate].
    apply Nat.eqb_eq in E1, E2.
    exists m. split; [reflexivity|].
    split; [discriminate|]. split; [discriminate|].
    split; [now symmetry|]. split; [now symmetry|].
    rewrite (@evaluate_model_fitted E model m (x :: X_train) y_train
               (x' :: X_test) y_test Hm) in Hs';
      [now injection Hs' | discriminate | discriminate | now symmetry | now symmetry].
Qed.

Lemma evaluate_model_returns_witness :
  exists clf m,
    train_model majority round_robin reviews sentiments two_by_two = Ok clf /\
    best_estimator_ clf = Some m /\
    reviews <> [] /\ firstn 2 reviews <> [] /\
    length reviews = length sentiments /\
    length (firstn 2 reviews) = length (firstn 2 sentiments) /\
    evaluate_model clf reviews sentiments (firstn 2 reviews) (firstn 2 sentiments)
    = Scored (f1_score sentiments (map (predict majority m) reviews),
              f1_score (firstn 2 sentiments)
                       (map (predict majority m) (firstn 2 reviews))).
Proof.
  assert (H : exists clf m,
             train_model majority round_robin reviews sentiments two_by_two = Ok clf /\
             best_estimator_ clf = Some m).
  { vm_compute. eexists. eexists. split; reflexivity. }
  destruct H as [clf [m [H Hm]]]. exists clf, m.
  assert (H1 : reviews <> []) by discriminate.
  assert (H2 : firstn 2 reviews <> []) by discriminate.
  assert (H3 : length reviews = length sentiments) by reflexivity.
  assert (H4 : length (firstn 2 reviews) = length (firstn 2 sentiments)) by reflexivity.
  split; [exact H|]. split; [exact Hm|].
  split; [exact H1|]. split; [exact H2|]. split; [exact H3|]. split; [exact H4|].
  exact (proj1 (@evaluate_model_returns majority clf reviews sentiments
                  (firstn 2 reviews) (firstn 2 sentiments)) m Hm H1 H2 H3 H4).
Defined.

(** ** The workflow *)

Lemma take_nonempty (T : Type) (a : list T) (indices : list nat) :
  Forall (fun i => (i < length a)%nat) indices ->
  (0 < length indices)%nat -> take a indices <> [].
Proof.
  intros Hin Hpos Hnil. apply (f_equal (@length T)) in Hnil.
  rewrite (@take_length T a indices Hin) in Hnil. simpl in Hnil. lia.
Qed.

(** X22. The steps of the workflow fit together: when [split_train_test]
    returns its four parts and [train_model] returns a search fitted on the
    train part, [evaluate_model] raises nothing; it returns two scores
    between 0 and 1, the first being the F1 score, on the train part, of the
    estimator that was refitted on that same train part. *)
Theorem workflow_scores (E : Estimator) (R : RandomState)
    (global : rng R) (splitter : Splitter)
    (X : list (sample E)) (y : list label) (test_size : size)
    (random_state : seed_arg)
    (hyperparameters : list (pystr * list (param E)))
    (X_train X_test : list (sample E)) (y_train y_test : list label)
    (model : GridSearchCV E) :
  (forall g n, Permutation (fst (permutation R g n)) (seq 0 n)) ->
  fst (split_train_test R global X y test_size random_state)
  = Ok (X_train, X_test, y_train, y_test) ->
  train_model E splitter X_train y_train hyperparameters = Ok model ->
  exists train_score test_score,
    evaluate_model model X_train y_train X_test y_test
    = Scored (train_score, test_score) /\
    train_score
    = f1_score y_train
        (map (predict E (fit E (best_params_ model) X_train y_train)) X_train) /\
    (0 <= train_score)%Q /\ (train_score <= 1)%Q /\
    (0 <= test_score)%Q /\ (test_score <= 1)%Q.
Proof.
  intros Hperm Hsplit Htrain.
  destruct (@split_train_test_inv (sample E) label R global X y test_size
              random_state _ Hperm Hsplit)
    as [train [test [Hv [Hlen [Hp Hparts]]]]].
  injection Hparts as -> -> -> ->.
  destruct (@split_positions_in_range train test (length X) Hp) as [Htr Hte].
  destruct (@validate_shuffle_split_both (length X) test_size
              (length train) (length test) Hv) as [Hntr [Hnte _]].
  destruct (@train_model_inv E splitter (take X train) (take y train)
              hyperparameters model Htrain)
    as [candidates [splits [Hl [_ [_ [_ [_ [_ [_ [_ [_ [_ Hfit]]]]]]]]]]]].
  assert (Hlte : length (take X test) = length (take y test)).
  { rewrite (@take_length _ X test Hte). rewrite Hlen in Hte.
    now rewrite (@take_length _ y test Hte). }
  rewrite (@evaluate_model_fitted E model _ (take X train) (take y train)
             (take X test) (take y test) Hfit
             (@take_nonempty _ X train Htr Hntr)
             (@take_nonempty _ X test Hte Hnte) Hl Hlte).
  eexists. eexists. split; [reflexivity|]. split; [reflexivity|].
  split; [apply f1_score_range|]. split; [apply f1_score_range|].
  split; apply f1_score_range.
Qed.

Lemma workflow_scores_witness :
  (forall g n, Permutation (fst (permutation rotating g n)) (seq 0 n)) /\
  exists X_train X_test y_train y_test model,
    fst (split_train_test rotating 0%nat reviews sentiments
           default_test_size default_random_state)
    = Ok (X_train, X_test, y_train, y_test) /\
    train_model majority round_robin X_train y_train HYPERPARAMETERS = Ok model /\
    exists train_score test_score,
      evaluate_model model X_train y_train X_test y_test
      = Scored (train_score, test_score) /\
      train_score
      = f1_score y_train
          (map (predict majority (fit majority (best_params_ model) X_train y_train))
               X_train) /\
      (0 <= train_score)%Q /\ (train_score <= 1)%Q /\
      (0 <= test_score)%Q /\ (test_score <= 1)%Q.
Proof.
  split; [exact rotating_permutation|].
  assert (Hs : exists parts,
             fst (split_train_test rotating 0%nat reviews sentiments
                    default_test_size default_random_state) = Ok parts).
  { vm_compute. eexists. reflexivity. }
  destruct Hs as [[[[X_train X_test] y_train] y_test] Hs].
  assert (Ht : exists model,
             train_model majority round_robin X_train y_train HYPERPARAMETERS
             = Ok model).
  { vm_compute in Hs. injection Hs as <- <- <- <-.
    vm_compute. eexists. reflexivity. }
  destruct Ht as [model Ht].
  exists X_train, X_test, y_train, y_test, model.
  split; [exact Hs|]. split; [exact Ht|].
  exact (@workflow_scores majority rotating 0%nat round_robin reviews sentiments
           default_test_size default_random_state HYPERPARAMETERS
           X_train X_test y_train y_test model rotating_permutation Hs Ht).
Defined.

(** ** The schedule *)

(** X23. The cron expression the deployment is served with, '30 * 15 * *',
    fires at minute 30 of every hour on day 15 of every month, and at no
    other moment: 24 times on that day, at 00:30 and at 13:30 alike. *)
Theorem schedule_fires (t : moment) :
  exists c,
    parse_cron schedule = Some c /\
    (fires c t = true <-> at_minute t = 30%nat /\ at_day t = 15%nat).
Proof.
  eexists. split; [vm_compute; reflexivity|].
  unfold fires, field_matches, weekday_matches. cbn [cron_minute cron_hour cron_day cron_month cron_weekday].
  rewrite !andb_true_r. cbn [andb]. rewrite andb_true_iff, !Nat.eqb_eq.
  split; intros [H1 H2]; split; congruence.
Qed.

Lemma schedule_fires_witness :
  exists c,
    parse_cron schedule = Some c /\
    fires c {| at_minute := 30; at_hour := 13; at_day := 15;
               at_month := 6; at_weekday := 2 |} = true /\
    fires c {| at_minute := 30; at_hour := 0; at_day := 15;
               at_month := 6; at_weekday := 2 |} = true /\
    fires c {| at_minute := 30; at_hour := 0; at_day := 16;
               at_month := 6; at_weekday := 3 |} = false.
Proof.
  destruct (schedule_fires {| at_minute := 30; at_hour := 13; at_day := 15;
                              at_month := 6; at_weekday := 2 |})
    as [c [Hc Hf]].
  exists c. split; [exact Hc|].
  split; [apply Hf; split; reflexivity|].
  vm_compute in Hc. injection Hc as <-. split; reflexivity.
Defined.
